(** * zmq-bw: the traffic beacon of [zmq-bw.py]

    A shallow embedding of [zmq-bw.py] and the properties of its counter
    sampling ([Interface], [SpeedDB]) and of its delivery channel ([Queue],
    [beacon]).

    Conventions of the embedding:
    - Python integers are [Z] (unbounded on both sides).
    - [self.mem], a dict only ever read with [get] and written by key, is a
      [gmap string Z].
    - the dicts that end up serialised by [json.dumps] / [send_json] keep
      Python's insertion order: they are association lists without
      duplicate keys, written through [dict_set].
    - a method that mutates [self] and may raise is a function from the
      object to an outcome together with the object as the call leaves it:
      mutations made before an exception are kept.
    - the operating system is a parameter: what reading and parsing each
      statistics file yields at the time of the call; so is the zmq
      library: whether it creates a context and a socket and accepts a key
      or an endpoint.
    - a run is described by the events the program causes until an
      exception leaves it. *)

From stdpp Require Import base option strings list gmap.
From Stdlib Require Import ZArith Lia.

Local Open Scope string_scope.
Local Open Scope list_scope.
Local Open Scope Z_scope.

(** ** Outcomes of calls that may raise *)

(** The exceptions of the program. [Interface._poll] raises an [OSError]
    when [open] or [read] fails (no such interface, no permission) and a
    [ValueError] when [int] fails. Setting a socket option to [None] raises
    a [TypeError]; the zmq library raises a [ZMQError]. *)
Inductive exn : Type :=
  | OSError
  | ValueError
  | TypeError
  | ZMQError.

Inductive outcome (A : Type) : Type :=
  | Ok (a : A)
  | Raise (e : exn).
Arguments Ok {A} a.
Arguments Raise {A} e.

Definition is_Ok {A} (r : outcome A) : Prop :=
  match r with Ok _ => True | Raise _ => False end.

Definition raises {A} (r : outcome A) : Prop :=
  match r with Ok _ => False | Raise _ => True end.

#[global] Instance exn_eq_dec : EqDecision exn.
Proof. solve_decision. Defined.

#[global] Instance is_Ok_dec {A} (r : outcome A) : Decision (is_Ok r).
Proof. destruct r; simpl; apply _. Defined.

#[global] Instance raises_dec {A} (r : outcome A) : Decision (raises r).
Proof. destruct r; simpl; apply _. Defined.

(** ** Python dicts whose order is observable *)

Module PyDict.
Section pydict.
Context {K V : Type} `{EqDecision K}.

(** [d.get(k)] *)
Fixpoint dict_get (k : K) (d : list (K * V)) : option V :=
  match d with
  | [] => None
  | (k', v') :: d' => if decide (k' = k) then Some v' else dict_get k d'
  end.

(** [d[k] = v]: an existing key keeps its place, a new one goes last. *)
Fixpoint dict_set (k : K) (v : V) (d : list (K * V)) : list (K * V) :=
  match d with
  | [] => [(k, v)]
  | (k', v') :: d' =>
      if decide (k' = k) then (k', v) :: d' else (k', v') :: dict_set k v d'
  end.

(** [for k, v in kvs: d[k] = v] *)
Definition dict_update (d : list (K * V)) (kvs : list (K * V)) : list (K * V) :=
  foldl (λ d kv, dict_set kv.1 kv.2 d) d kvs.

(** [list(d.keys())] and [list(d.values())] *)
Definition dict_keys (d : list (K * V)) : list K := d.*1.
Definition dict_values (d : list (K * V)) : list V := d.*2.
End pydict.
End PyDict.
Import PyDict.

Abbreviation pydict K V := (list (K * V)).

(** ** Calls that mutate an object and may raise *)

(** [Eff S A]: a call on an object of state [S] returning an [A] or raising.
    The object is returned as the call leaves it in both cases. *)
Definition Eff (S A : Type) : Type := S → outcome A * S.

#[global] Instance Eff_ret {S} : MRet (Eff S) :=
  λ A a s, (Ok a, s).

#[global] Instance Eff_bind {S} : MBind (Eff S) :=
  λ A B f m s,
    match m s with
    | (Ok a, s') => f a s'
    | (Raise e, s') => (Raise e, s')
    end.

Definition get {S} : Eff S S := λ s, (Ok s, s).
Definition put {S} (s : S) : Eff S unit := λ _, (Ok tt, s).

(** [{key(a): val(a) for a in l}], started from the entries of [acc]. *)
Fixpoint dict_comprehension {S A K V} `{EqDecision K}
    (key : A → K) (val : A → Eff S V) (l : list A) (acc : pydict K V)
    : Eff S (pydict K V) :=
  match l with
  | [] => mret acc
  | a :: l' =>
      v ← val a;
      dict_comprehension key val l' (dict_set (key a) v acc)
  end.

(** ** The operating system as [_poll] sees it *)

(** For each path, what [int(open(path).read().strip())] evaluates to at
    the time of the call: the integer, or the exception raised. *)
Definition sysfs : Type := string → outcome Z.

(** ** class Interface *)

Record Interface : Type := {
  mem : gmap string Z;
  iface : string;
}.

(** [KERNEL_PATH % (iface, value)] *)
Definition KERNEL_PATH (iface value : string) : string :=
  "/sys/class/net/" +:+ iface +:+ "/statistics/" +:+ value.

Definition KEYS : list string := ["rx_bytes"; "tx_bytes"].

Module Interface_methods.
Section with_sysfs.
Context (fs : sysfs).

Definition _poll (value : string) : Eff Interface Z :=
  λ self, (fs (KERNEL_PATH (iface self) value), self).

Definition _delta (key : string) : Eff Interface Z :=
  x ← _poll key;
  self ← get;
  let delta := x - default 0 (mem self !! key) in
  _ ← put {| mem := <[key := x]> (mem self); iface := iface self |};
  mret delta.

Definition poll : Eff Interface (pydict string Z) :=
  dict_comprehension id _delta KEYS [].

(** [Interface(iface)]: the object, unless the poll of [__init__] raises.
    What that poll returns is dropped. *)
Definition Interface_init (iface : string) : outcome Interface :=
  match poll {| mem := ∅; iface := iface |} with
  | (Ok _, self) => Ok self
  | (Raise e, _) => Raise e
  end.
End with_sysfs.
End Interface_methods.
Export Interface_methods.

(** ** class SpeedDB *)

Record SpeedDB : Type := {
  ifaces : list Interface;
}.

Module SpeedDB_methods.
Section with_sysfs.
Context (fs : sysfs).

(** [[Interface(iface) for iface in ifaces]] *)
Fixpoint Interface_init_all (names : list string) : outcome (list Interface) :=
  match names with
  | [] => Ok []
  | n :: names' =>
      match Interface_init fs n with
      | Ok x =>
          match Interface_init_all names' with
          | Ok xs => Ok (x :: xs)
          | Raise e => Raise e
          end
      | Raise e => Raise e
      end
  end.

Definition SpeedDB_init (names : list string) : outcome SpeedDB :=
  match Interface_init_all names with
  | Ok xs => Ok {| ifaces := xs |}
  | Raise e => Raise e
  end.

(** [{x.iface: x.poll() for x in xs}], started from the entries of [acc];
    the objects of [xs] are returned as the polls leave them. *)
Fixpoint pack_loop (xs : list Interface)
    (acc : pydict string (pydict string Z))
    : outcome (pydict string (pydict string Z)) * list Interface :=
  match xs with
  | [] => (Ok acc, [])
  | x :: rest =>
      match poll fs x with
      | (Ok d, x') =>
          let '(r, rest') := pack_loop rest (dict_set (iface x) d acc) in
          (r, x' :: rest')
      | (Raise e, x') => (Raise e, x' :: rest)
      end
  end.

Definition pack : Eff SpeedDB (pydict string (pydict string Z)) :=
  λ self,
    let '(r, xs) := pack_loop (ifaces self) [] in
    (r, {| ifaces := xs |}).
End with_sysfs.
End SpeedDB_methods.
Export SpeedDB_methods.

(** ** class Crypto *)

(** A certificate as [zmq.auth.load_certificate] returns it: the public key
    and, where the file holds one, the secret key. *)
Definition certificate : Type := (string * option string)%type.

Record Crypto : Type := {
  server : certificate;
  client : certificate;
}.

(** The attributes of the zmq socket the program touches; [None] is an
    attribute that was not set. *)
Record Socket : Type := {
  curve_secretkey : option string;
  curve_publickey : option string;
  curve_serverkey : option string;
  endpoints : list string;
}.

(** ** What the process does to the outside *)

Record envelope : Type := {
  origin : string;
  when : Z;
  data : pydict string (pydict string Z);
}.

Inductive stream : Type :=
  | stdout
  | stderr.

Inductive text : Type :=
  | Literal (s : string)
  | json_dumps (d : envelope).

Inductive io_event : Type :=
  | ZmqContext                          (* zmq.Context() *)
  | ZmqSocketPush                       (* ctx.socket(zmq.PUSH) *)
  | ZmqConnect (dest : string)          (* z.connect(dest) *)
  | ZmqSendJson (d : envelope)          (* z.send_json(data) *)
  | Print (f : stream) (line : text)    (* print(line, file=f, flush=True) *)
  | Sleep (seconds : Z).                (* time.sleep(seconds) *)

(** The events that reach the network: connecting the socket, and handing
    it a message. *)
Definition network_op (ev : io_event) : bool :=
  match ev with
  | ZmqConnect _ | ZmqSendJson _ => true
  | ZmqContext | ZmqSocketPush | Print _ _ | Sleep _ => false
  end.

(** The socket options [Crypto.apply] sets. *)
Inductive curve_option : Type :=
  | CURVE_SECRETKEY
  | CURVE_PUBLICKEY
  | CURVE_SERVERKEY.

(** What the zmq library answers to the calls of [Queue.__init__]: each
    call returns or raises ([zmq.Context()], [ctx.socket(zmq.PUSH)],
    setting a curve option to a key, [z.connect(dest)]). The library
    raises a [ZMQError] for a key or an endpoint it rejects. *)
Record zmq_lib : Type := {
  zmq_Context : outcome unit;
  zmq_socket : outcome unit;
  zmq_setsockopt : curve_option → string → outcome unit;
  zmq_connect : string → outcome unit;
}.

(** The outside at one instant: [int(time.time())], the statistics files,
    [os.listdir], [zmq.auth.load_certificate] and the zmq library. *)
Record world : Type := {
  clock : Z;
  files : sysfs;
  listdir : string → outcome (list string);
  load_certificate : string → outcome certificate;
  zmq : zmq_lib;
}.

Module Crypto_methods.
Definition Crypto_init (w : world) (server_secret client_public : string)
    : outcome Crypto :=
  match load_certificate w server_secret with
  | Ok s =>
      match load_certificate w client_public with
      | Ok c => Ok {| server := s; client := c |}
      | Raise e => Raise e
      end
  | Raise e => Raise e
  end.

(** The socket with the attribute of option [o] set to [key]. *)
Definition with_curve (o : curve_option) (key : string) (z : Socket)
    : Socket :=
  match o with
  | CURVE_SECRETKEY =>
      {| curve_secretkey := Some key;
         curve_publickey := curve_publickey z;
         curve_serverkey := curve_serverkey z;
         endpoints := endpoints z |}
  | CURVE_PUBLICKEY =>
      {| curve_secretkey := curve_secretkey z;
         curve_publickey := Some key;
         curve_serverkey := curve_serverkey z;
         endpoints := endpoints z |}
  | CURVE_SERVERKEY =>
      {| curve_secretkey := curve_secretkey z;
         curve_publickey := curve_publickey z;
         curve_serverkey := Some key;
         endpoints := endpoints z |}
  end.

(** [z.curve_secretkey = value] and the like: [None] is no key and raises
    a [TypeError]; a key is set unless the library rejects it. *)
Definition setattr_curve (w : world) (o : curve_option)
    (value : option string) : Eff Socket unit :=
  λ z,
    match value with
    | None => (Raise TypeError, z)
    | Some key =>
        match zmq_setsockopt (zmq w) o key with
        | Ok _ => (Ok tt, with_curve o key z)
        | Raise e => (Raise e, z)
        end
    end.

Definition apply (w : world) (self : Crypto) : Eff Socket unit :=
  let '(client_public, client_secret) := client self in
  _ ← setattr_curve w CURVE_SECRETKEY client_secret;
  _ ← setattr_curve w CURVE_PUBLICKEY (Some client_public);
  let '(server_public, _) := server self in
  setattr_curve w CURVE_SERVERKEY (Some server_public).
End Crypto_methods.
Export Crypto_methods.

(** ** class Queue *)

Record Queue : Type := {
  node : string;
  dry : bool;
  z : Socket;
}.

Module Queue_methods.
(** [Queue(dest, node, crypto, dry)]: the object, unless a call of the
    constructor raises, and the calls that returned. [crypto] is [None] or
    a [Crypto] object. *)
Definition Queue_init (w : world) (dest node : string)
    (crypto : option Crypto) (dry : bool) : outcome Queue * list io_event :=
  match zmq_Context (zmq w) with
  | Raise e => (Raise e, [])
  | Ok _ =>
      match zmq_socket (zmq w) with
      | Raise e => (Raise e, [ZmqContext])
      | Ok _ =>
          let z0 := {| curve_secretkey := None; curve_publickey := None;
                       curve_serverkey := None; endpoints := [] |} in
          match match crypto with
                | Some c => apply w c z0
                | None => (Ok tt, z0)
                end with
          | (Raise e, _) => (Raise e, [ZmqContext; ZmqSocketPush])
          | (Ok _, z1) =>
              match zmq_connect (zmq w) dest with
              | Raise e => (Raise e, [ZmqContext; ZmqSocketPush])
              | Ok _ =>
                  (Ok {| node := node; dry := dry;
                         z := {| curve_secretkey := curve_secretkey z1;
                                 curve_publickey := curve_publickey z1;
                                 curve_serverkey := curve_serverkey z1;
                                 endpoints := endpoints z1 ++ [dest] |} |},
                   [ZmqContext; ZmqSocketPush; ZmqConnect dest])
              end
          end
      end
  end.

(** [self.send(speed)]: the outcome, [speed] as the call leaves it, and
    what was printed or sent. *)
Definition send (w : world) (self : Queue) (speed : SpeedDB)
    : outcome unit * SpeedDB * list io_event :=
  match pack (files w) speed with
  | (Ok snapshot, speed') =>
      let d := {| origin := node self; when := clock w; data := snapshot |} in
      if dry self
      then (Ok tt, speed', [Print stdout (json_dumps d)])
      else (Ok tt, speed', [ZmqSendJson d])
  | (Raise e, speed') => (Raise e, speed', [])
  end.
End Queue_methods.
Export Queue_methods.

(** ** beacon *)

Module Args.
Record t : Type := {
  endpoint : string;
  name : string;
  ifaces : list string;
  key : option string;
  client_key : option string;
  dry : bool;
}.
End Args.

(** Truth value of an optional command line string. *)
Definition truthy (o : option string) : bool :=
  match o with
  | Some s => bool_decide (s ≠ "")
  | None => false
  end.

(** How far a run of the endless loop got on the worlds it was given. A
    run is described up to the point where an exception leaves [beacon];
    what the interpreter does with that exception is not part of it. *)
Inductive run : Type :=
  | Running
  | Crashed (e : exn).

(** [while True: z.send(speed); time.sleep(1)], one turn per world. *)
Fixpoint beacon_loop (q : Queue) (speed : SpeedDB) (ws : list world)
    : run * list io_event :=
  match ws with
  | [] => (Running, [])
  | w :: ws' =>
      match send w q speed with
      | (Ok _, speed', evs) =>
          let '(r, evs') := beacon_loop q speed' ws' in
          (r, evs ++ Sleep 1 :: evs')
      | (Raise e, _, evs) => (Crashed e, evs)
      end
  end.

(** [beacon(args)]: [w0] is the outside during start-up, [ws] the outside
    at each turn of the loop. *)
Definition beacon (args : Args.t) (w0 : world) (ws : list world)
    : run * list io_event :=
  let crypto :=
    if truthy (Args.key args) && truthy (Args.client_key args)
    then
      match Crypto_init w0 (default "" (Args.key args))
                           (default "" (Args.client_key args)) with
      | Ok c => Ok (Some c, [])
      | Raise e => Raise e
      end
    else
      Ok (None,
          if negb (Args.dry args)
          then [Print stderr (Literal "crypto disabled")] else [])
  in
  match crypto with
  | Raise e => (Crashed e, [])
  | Ok (crypto, evs0) =>
      match Queue_init w0 (Args.endpoint args) (Args.name args) crypto
                       (Args.dry args) with
      | (Raise e, evs1) => (Crashed e, evs0 ++ evs1)
      | (Ok q, evs1) =>
          let names :=
            match Args.ifaces args with
            | [] => listdir w0 "/sys/class/net/"
            | _ :: _ => Ok (Args.ifaces args)
            end in
          match names with
          | Raise e => (Crashed e, evs0 ++ evs1)
          | Ok names =>
              match SpeedDB_init (files w0) names with
              | Raise e => (Crashed e, evs0 ++ evs1)
              | Ok speed =>
                  let '(r, evs2) := beacon_loop q speed ws in
                  (r, evs0 ++ evs1 ++ evs2)
              end
          end
      end
  end.

(** ** Vocabulary of the statements *)

(** The raw value of counter [key] of interface [nm] in the file system
    [fs], as [_poll] reads it. *)
Definition raw (fs : sysfs) (nm key : string) : outcome Z :=
  fs (KERNEL_PATH nm key).

(** The results of polling one [Interface] once per file system of [fss]. *)
Fixpoint poll_seq (fss : list sysfs) (self : Interface)
    : list (outcome (pydict string Z)) :=
  match fss with
  | [] => []
  | fs :: fss' =>
      let '(r, self') := poll fs self in
      r :: poll_seq fss' self'
  end.

(** The delta a poll reported for [key], if it reported one. *)
Definition delta_of (key : string) (r : outcome (pydict string Z))
    : option Z :=
  match r with
  | Ok d => dict_get key d
  | Raise _ => None
  end.

(** The raw values of counter [key] of [nm] along [fss]. *)
Definition readings (nm key : string) (fss : list sysfs)
    : list (outcome Z) :=
  (λ fs, raw fs nm key) <$> fss.

(** Every counter of [nm] is readable in [fs]. *)
Definition readable (fs : sysfs) (nm : string) : Prop :=
  Forall (λ key, is_Ok (raw fs nm key)) KEYS.

(** [x1 - prev, x2 - x1, ...] *)
Fixpoint diffs (prev : Z) (xs : list Z) : list Z :=
  match xs with
  | [] => []
  | x :: xs' => (x - prev) :: diffs x xs'
  end.

(** [prev ≤ x1 ≤ x2 ≤ ...] *)
Fixpoint nondecreasing (prev : Z) (xs : list Z) : Prop :=
  match xs with
  | [] => True
  | x :: xs' => prev ≤ x ∧ nondecreasing x xs'
  end.

(** The object as [x.poll()] leaves it, and the dict the call returns (the
    empty dict stands in when it raises). *)
Definition polled (fs : sysfs) (x : Interface) : Interface :=
  (poll fs x).2.

Definition reported (fs : sysfs) (x : Interface) : pydict string Z :=
  match (poll fs x).1 with
  | Ok d => d
  | Raise _ => []
  end.

Definition zero_deltas : pydict string Z :=
  [("rx_bytes", 0); ("tx_bytes", 0)].

(** A file system given by the table of its readable statistics files;
    every other path raises [OSError]. *)
Definition sysfs_of (table : list (string * Z)) : sysfs :=
  λ path,
    match dict_get path table with
    | Some n => Ok n
    | None => Raise OSError
    end.

(** The statistics files of one interface. *)
Definition stats (nm : string) (rx tx : Z) : list (string * Z) :=
  [(KERNEL_PATH nm "rx_bytes", rx); (KERNEL_PATH nm "tx_bytes", tx)].

(** The file system in which [eth0] has received [rx] bytes and sent none. *)
Definition eth0_at (rx : Z) : sysfs := sysfs_of (stats "eth0" rx 0).

(** The readings of the end-to-end scenario: 1000, 1500, 1200, 1800. *)
Definition scenario : list sysfs :=
  [eth0_at 1000; eth0_at 1500; eth0_at 1200; eth0_at 1800].

(** A fresh tracker object, before the poll of [__init__]. *)
Definition fresh (nm : string) : Interface := {| mem := ∅; iface := nm |}.

(** A zmq library that accepts every key and every endpoint. *)
Definition zmq_accepting : zmq_lib :=
  {| zmq_Context := Ok tt;
     zmq_socket := Ok tt;
     zmq_setsockopt := λ _ _, Ok tt;
     zmq_connect := λ _, Ok tt |}.

(** A world at time [t] with the statistics files of [table], an empty
    [/sys/class/net/], no certificate files and an accepting zmq. *)
Definition world_of (t : Z) (table : list (string * Z)) : world :=
  {| clock := t;
     files := sysfs_of table;
     listdir := λ _, Ok [];
     load_certificate := λ _, Raise OSError;
     zmq := zmq_accepting |}.

(** A [Queue] as the constructor builds it without keys. *)
Definition queue_of (nd : string) (dry_ : bool) (dest : string) : Queue :=
  {| node := nd; dry := dry_;
     z := {| curve_secretkey := None; curve_publickey := None;
             curve_serverkey := None; endpoints := [dest] |} |}.

(** The arguments of the runs used as examples. *)
Definition args_of (dry_ : bool) (names : list string) : Args.t :=
  {| Args.endpoint := "tcp://127.0.0.1:8733"; Args.name := "node";
     Args.ifaces := names; Args.key := None; Args.client_key := None;
     Args.dry := dry_ |}.

(** ** Vocabulary of the further properties *)

(** The sum of a list of deltas. *)
Definition total (ds : list Z) : Z := foldr Z.add 0 ds.

(** The elements of [l], each one at its first occurrence. *)
Fixpoint first_occurrences (l : list string) : list string :=
  match l with
  | [] => []
  | x :: l' => x :: filter (λ y, y ≠ x) (first_occurrences l')
  end.

(** Every counter of every interface of [names] is readable in [fs]. *)
Definition all_readable (fs : sysfs) (names : list string) : Prop :=
  Forall (readable fs) names.

(** The interface names [beacon] settles on:
    [args.ifaces if args.ifaces else os.listdir('/sys/class/net/')]. *)
Definition resolve_ifaces (args : Args.t) (w0 : world)
    : outcome (list string) :=
  match Args.ifaces args with
  | [] => listdir w0 "/sys/class/net/"
  | _ :: _ => Ok (Args.ifaces args)
  end.

(** Whether [beacon] builds a [Crypto] object:
    [args.key and args.client_key]. *)
Definition crypto_enabled (args : Args.t) : bool :=
  truthy (Args.key args) && truthy (Args.client_key args).

(** Kinds of events. *)
Definition is_warning (ev : io_event) : bool :=
  match ev with
  | Print stderr _ => true
  | _ => false
  end.

Definition is_output (ev : io_event) : bool :=
  match ev with
  | Print stdout _ | ZmqSendJson _ => true
  | _ => false
  end.

Definition is_sleep (ev : io_event) : bool :=
  match ev with
  | Sleep _ => true
  | _ => false
  end.

(** The envelope an event prints or sends. *)
Definition envelope_of (ev : io_event) : option envelope :=
  match ev with
  | Print _ (json_dumps d) | ZmqSendJson d => Some d
  | _ => None
  end.

(** How many events of [evs] satisfy [p]. *)
Definition count (p : io_event → bool) (evs : list io_event) : nat :=
  length (List.filter p evs).

(** The first step of [beacon]: the [Crypto] object, or [None] with the
    warning of a non-dry run. *)
Definition startup_crypto (args : Args.t) (w0 : world)
    : outcome (option Crypto * list io_event) :=
  if crypto_enabled args
  then
    match Crypto_init w0 (default "" (Args.key args))
                         (default "" (Args.client_key args)) with
    | Ok c => Ok (Some c, [])
    | Raise e => Raise e
    end
  else
    Ok (None,
        if negb (Args.dry args)
        then [Print stderr (Literal "crypto disabled")] else []).

(** The second step of [beacon]: building the [Queue]. *)
Definition startup_queue (args : Args.t) (w0 : world)
    (crypto : option Crypto) : outcome Queue * list io_event :=
  Queue_init w0 (Args.endpoint args) (Args.name args) crypto
    (Args.dry args).

(** What building the [Queue] does when no call raises. *)
Definition startup_socket (args : Args.t) : list io_event :=
  [ZmqContext; ZmqSocketPush; ZmqConnect (Args.endpoint args)].

(** The event by which a [Queue] delivers an envelope: a line on standard
    output in dry mode, a message on the socket otherwise. *)
Definition message (q : Queue) (d : envelope) : io_event :=
  if dry q then Print stdout (json_dumps d) else ZmqSendJson d.

(** The line [beacon] prints when it runs without keys. *)
Definition is_crypto_warning (ev : io_event) : bool :=
  match ev with
  | Print stderr (Literal s) => bool_decide (s = "crypto disabled")
  | _ => false
  end.

(** The events of [evs] that reach the network. *)
Definition network_ops (evs : list io_event) : list io_event :=
  List.filter network_op evs.

(** * Properties *)

(** ** Dicts *)

Section pydict_facts.
Context {K V : Type} `{EqDecision K}.
Implicit Types (d : list (K * V)) (k : K) (v : V).

Lemma dict_get_set_eq k v d : dict_get k (dict_set k v d) = Some v.
Proof.
  induction d as [|[k' v'] d IH]; simpl.
  - by rewrite decide_True.
  - destruct (decide (k' = k)) as [->|Hne]; simpl.
    + by rewrite decide_True.
    + by rewrite decide_False.
Qed.

Lemma dict_get_set_ne k k' v d :
  k ≠ k' → dict_get k' (dict_set k v d) = dict_get k' d.
Proof.
  intros Hne. induction d as [|[k0 v0] d IH]; simpl.
  - by rewrite decide_False.
  - destruct (decide (k0 = k)) as [->|Hne0]; simpl.
    + by rewrite !decide_False.
    + by rewrite IH.
Qed.

Lemma dict_get_Some_keys k v d : dict_get k d = Some v → k ∈ dict_keys d.
Proof.
  induction d as [|[k0 v0] d IH]; simpl; [done|].
  destruct (decide (k0 = k)) as [->|Hne]; intros H.
  - apply list_elem_of_here.
  - apply list_elem_of_further, IH, H.
Qed.

Lemma dict_keys_get k d : k ∈ dict_keys d → is_Some (dict_get k d).
Proof.
  induction d as [|[k0 v0] d IH]; simpl.
  - intros H. by apply elem_of_nil in H.
  - intros H. destruct (decide (k0 = k)) as [->|Hne]; [by eexists|].
    apply elem_of_cons in H as [->|H]; [done|]. by apply IH.
Qed.

Lemma dict_keys_set k v d :
  dict_keys (dict_set k v d)
  = if decide (k ∈ dict_keys d) then dict_keys d else dict_keys d ++ [k].
Proof.
  unfold dict_keys. induction d as [|[k0 v0] d IH].
  - destruct (decide (k ∈ ([] : list (K * V)).*1)) as [Hin|_]; [|done].
    by apply elem_of_nil in Hin.
  - cbn [dict_set]. destruct (decide (k0 = k)) as [->|Hne].
    + destruct (decide (k ∈ ((k, v0) :: d).*1)) as [_|Hnin]; [done|].
      destruct Hnin. apply list_elem_of_here.
    + rewrite fmap_cons, IH. cbn [fst].
      destruct (decide (k ∈ d.*1)) as [Hin|Hnin];
        destruct (decide (k ∈ ((k0, v0) :: d).*1)) as [Hin'|Hnin'];
        try done.
      * destruct Hnin'. by apply list_elem_of_further.
      * rewrite fmap_cons in Hin'. cbn [fst] in Hin'.
        apply elem_of_cons in Hin' as [?|?]; [congruence|done].
Qed.

Lemma elem_of_dict_keys_set k k' v d :
  k' ∈ dict_keys (dict_set k v d) ↔ k' = k ∨ k' ∈ dict_keys d.
Proof.
  rewrite dict_keys_set. case_decide as Hin.
  - split; [by right|]. intros [->|?]; done.
  - rewrite elem_of_app, list_elem_of_singleton. tauto.
Qed.

Lemma NoDup_dict_keys_set k v d :
  NoDup (dict_keys d) → NoDup (dict_keys (dict_set k v d)).
Proof.
  intros Hnd. rewrite dict_keys_set. case_decide as Hin; [done|].
  apply NoDup_app. split; [done|]. split.
  - intros x Hx ->%list_elem_of_singleton. done.
  - apply NoDup_singleton.
Qed.

Lemma dict_update_snoc d kvs k v :
  dict_update d (kvs ++ [(k, v)]) = dict_set k v (dict_update d kvs).
Proof. unfold dict_update. by rewrite foldl_app. Qed.

Lemma elem_of_dict_keys_update k d kvs :
  k ∈ dict_keys (dict_update d kvs) ↔ k ∈ dict_keys d ∨ k ∈ kvs.*1.
Proof.
  revert d. induction kvs as [|[k0 v0] kvs IH]; intros d; simpl.
  - rewrite elem_of_nil. tauto.
  - rewrite IH, elem_of_dict_keys_set, elem_of_cons. tauto.
Qed.

Lemma NoDup_dict_keys_update d kvs :
  NoDup (dict_keys d) → NoDup (dict_keys (dict_update d kvs)).
Proof.
  revert d. induction kvs as [|[k0 v0] kvs IH]; intros d Hd; simpl; [done|].
  by apply IH, NoDup_dict_keys_set.
Qed.

Lemma dict_get_update_notin k d kvs :
  k ∉ kvs.*1 → dict_get k (dict_update d kvs) = dict_get k d.
Proof.
  revert d. induction kvs as [|[k0 v0] kvs IH]; intros d Hk; simpl; [done|].
  rewrite fmap_cons in Hk. cbn [fst] in Hk.
  apply not_elem_of_cons in Hk as [Hne Hk].
  rewrite IH by done. by apply dict_get_set_ne.
Qed.

(** The last entry written for a key is the one the dict holds. *)
Lemma dict_get_update_last k v d pre post :
  k ∉ post.*1 →
  dict_get k (dict_update d (pre ++ (k, v) :: post)) = Some v.
Proof.
  intros Hk. unfold dict_update. rewrite foldl_app. cbn [foldl fst snd].
  fold (dict_update (dict_set k v (foldl (λ d kv, dict_set kv.1 kv.2 d) d pre))
          post).
  rewrite dict_get_update_notin by done. apply dict_get_set_eq.
Qed.

Lemma dict_values_set (P : V → Prop) k v d :
  P v → Forall P (dict_values d) → Forall P (dict_values (dict_set k v d)).
Proof.
  intros Hv. unfold dict_values.
  induction d as [|[k0 v0] d IH]; intros Hd; cbn [dict_set].
  - by repeat constructor.
  - rewrite fmap_cons in Hd. apply Forall_cons in Hd as [H0 Hd].
    destruct (decide (k0 = k)); rewrite fmap_cons; apply Forall_cons; auto.
Qed.

Lemma dict_values_update (P : V → Prop) d kvs :
  Forall P kvs.*2 → Forall P (dict_values d) →
  Forall P (dict_values (dict_update d kvs)).
Proof.
  revert d. induction kvs as [|[k0 v0] kvs IH]; intros d Hk Hd; simpl; [done|].
  rewrite fmap_cons in Hk. apply Forall_cons in Hk as [H0 Hk].
  apply IH; [done|]. by apply dict_values_set.
Qed.

Lemma dict_get_Some_values k v d : dict_get k d = Some v → v ∈ dict_values d.
Proof.
  unfold dict_values. induction d as [|[k0 v0] d IH]; simpl; [done|].
  destruct (decide (k0 = k)); intros H.
  - injection H as ->. apply list_elem_of_here.
  - apply list_elem_of_further, IH, H.
Qed.
Lemma dict_keys_update_ext (d1 d2 kvs1 kvs2 : list (K * V)) :
  dict_keys d1 = dict_keys d2 → kvs1.*1 = kvs2.*1 →
  dict_keys (dict_update d1 kvs1) = dict_keys (dict_update d2 kvs2).
Proof.
  revert d1 d2 kvs2.
  induction kvs1 as [|[k1 v1] kvs1 IH]; intros d1 d2 [|[k2 v2] kvs2] Hd Hk;
    try done.
  rewrite !fmap_cons in Hk. cbn [fst] in Hk. injection Hk as -> Hk.
  cbn [dict_update foldl fst snd]. apply IH; [|done].
  by rewrite !dict_keys_set, Hd.
Qed.
End pydict_facts.

(** ** Interface: one call *)

Section interface_facts.
Context (fs : sysfs).
Implicit Types (self : Interface) (key : string).

Lemma _delta_Ok key self x :
  raw fs (iface self) key = Ok x →
  _delta fs key self
  = (Ok (x - default 0 (mem self !! key)),
     {| mem := <[key := x]> (mem self); iface := iface self |}).
Proof.
  unfold raw. intros Hx.
  unfold _delta, _poll, mbind, Eff_bind. by rewrite Hx.
Qed.

Lemma _delta_Raise key self e :
  raw fs (iface self) key = Raise e → _delta fs key self = (Raise e, self).
Proof.
  unfold raw. intros Hx.
  unfold _delta, _poll, mbind, Eff_bind. by rewrite Hx.
Qed.

Lemma poll_unfold self :
  poll fs self
  = match _delta fs "rx_bytes" self with
    | (Ok drx, self1) =>
        match _delta fs "tx_bytes" self1 with
        | (Ok dtx, self2) =>
            (Ok [("rx_bytes", drx); ("tx_bytes", dtx)], self2)
        | (Raise e, self2) => (Raise e, self2)
        end
    | (Raise e, self1) => (Raise e, self1)
    end.
Proof.
  unfold poll, KEYS. cbn [dict_comprehension]. unfold mbind, Eff_bind.
  destruct (_delta fs "rx_bytes" self) as [[drx|e] self1]; [|done].
  destruct (_delta fs "tx_bytes" self1) as [[dtx|e] self2]; done.
Qed.

Lemma poll_Ok self rx tx :
  raw fs (iface self) "rx_bytes" = Ok rx →
  raw fs (iface self) "tx_bytes" = Ok tx →
  poll fs self
  = (Ok [("rx_bytes", rx - default 0 (mem self !! "rx_bytes"));
         ("tx_bytes", tx - default 0 (mem self !! "tx_bytes"))],
     {| mem := <["tx_bytes" := tx]> (<["rx_bytes" := rx]> (mem self));
        iface := iface self |}).
Proof.
  intros Hrx Htx. rewrite poll_unfold, (_delta_Ok _ _ rx) by done.
  rewrite (_delta_Ok _ _ tx) by done. cbn [mem iface].
  by rewrite lookup_insert_ne.
Qed.

Lemma poll_Raise_rx self e :
  raw fs (iface self) "rx_bytes" = Raise e → poll fs self = (Raise e, self).
Proof. intros Hrx. by rewrite poll_unfold, (_delta_Raise _ _ e). Qed.

Lemma poll_Raise_tx self rx e :
  raw fs (iface self) "rx_bytes" = Ok rx →
  raw fs (iface self) "tx_bytes" = Raise e →
  poll fs self
  = (Raise e,
     {| mem := <["rx_bytes" := rx]> (mem self); iface := iface self |}).
Proof.
  intros Hrx Htx. rewrite poll_unfold, (_delta_Ok _ _ rx) by done.
  by rewrite (_delta_Raise _ _ e).
Qed.

Lemma readable_inv nm :
  readable fs nm →
  ∃ rx tx, raw fs nm "rx_bytes" = Ok rx ∧ raw fs nm "tx_bytes" = Ok tx.
Proof.
  unfold readable, KEYS. intros H.
  apply Forall_cons in H as [Hrx H]. apply Forall_cons in H as [Htx _].
  destruct (raw fs nm "rx_bytes") as [rx|]; [|done].
  destruct (raw fs nm "tx_bytes") as [tx|]; [|done].
  by exists rx, tx.
Qed.

Lemma elem_of_KEYS key : key ∈ KEYS → key = "rx_bytes" ∨ key = "tx_bytes".
Proof.
  unfold KEYS. rewrite !elem_of_cons, elem_of_nil. tauto.
Qed.

Lemma iface_polled self : iface (polled fs self) = iface self.
Proof.
  unfold polled.
  destruct (raw fs (iface self) "rx_bytes") as [rx|e] eqn:Hrx.
  - destruct (raw fs (iface self) "tx_bytes") as [tx|e] eqn:Htx.
    + by rewrite (poll_Ok _ rx tx).
    + by rewrite (poll_Raise_tx _ rx e).
  - by rewrite (poll_Raise_rx _ e).
Qed.

(** A poll whose reads all succeed: for each counter the difference to the
    stored value (0 when none is stored) is returned and the raw value is
    stored. *)
Lemma poll_readable self :
  readable fs (iface self) →
  ∃ d, poll fs self = (Ok d, polled fs self)
     ∧ dict_keys d = KEYS
     ∧ ∀ key x, key ∈ KEYS → raw fs (iface self) key = Ok x →
         dict_get key d = Some (x - default 0 (mem self !! key))
         ∧ mem (polled fs self) !! key = Some x.
Proof.
  intros (rx & tx & Hrx & Htx)%readable_inv. unfold polled.
  rewrite (poll_Ok _ rx tx) by done. eexists. split; [done|]. split; [done|].
  intros key x [->| ->]%elem_of_KEYS Hx; cbn [snd mem].
  - assert (x = rx) as -> by congruence. split; [done|].
    rewrite lookup_insert_ne by done. apply lookup_insert_eq.
  - assert (x = tx) as -> by congruence. split; [done|].
    apply lookup_insert_eq.
Qed.

(** A poll of an object that already stores the raw values returns zeros
    and leaves the object as it is. *)
Lemma poll_unchanged self :
  (∀ key, key ∈ KEYS → raw fs (iface self) key
                       = match mem self !! key with
                         | Some x => Ok x
                         | None => Raise OSError
                         end) →
  readable fs (iface self) →
  poll fs self = (Ok zero_deltas, self).
Proof.
  intros Hmem (rx & tx & Hrx & Htx)%readable_inv.
  rewrite (poll_Ok _ rx tx) by done.
  pose proof (Hmem "rx_bytes" ltac:(unfold KEYS; set_solver)) as H1.
  pose proof (Hmem "tx_bytes" ltac:(unfold KEYS; set_solver)) as H2.
  rewrite Hrx in H1. rewrite Htx in H2.
  destruct (mem self !! "rx_bytes") as [rx'|] eqn:E1; [|done].
  destruct (mem self !! "tx_bytes") as [tx'|] eqn:E2; [|done].
  injection H1 as ->. injection H2 as ->. cbn [default].
  rewrite !Z.sub_diag. unfold zero_deltas. f_equal.
  destruct self as [m nm]. cbn [mem iface] in *. f_equal.
  rewrite (insert_id m "rx_bytes" rx') by done. by apply insert_id.
Qed.
Lemma poll_is_Ok_readable self : is_Ok (poll fs self).1 → readable fs (iface self).
Proof.
  intros Hok. unfold readable, KEYS.
  destruct (raw fs (iface self) "rx_bytes") as [rx|e] eqn:Hrx.
  - destruct (raw fs (iface self) "tx_bytes") as [tx|e] eqn:Htx.
    + repeat constructor; by rewrite ?Hrx, ?Htx.
    + by rewrite (poll_Raise_tx _ rx e) in Hok.
  - by rewrite (poll_Raise_rx _ e) in Hok.
Qed.

(** Polling again while no raw value has changed returns zeros and changes
    nothing. *)
Lemma poll_twice self :
  is_Ok (poll fs self).1 →
  poll fs (polled fs self) = (Ok zero_deltas, polled fs self).
Proof.
  intros Hok. pose proof (poll_is_Ok_readable _ Hok) as Hfs.
  destruct (readable_inv _ Hfs) as (rx & tx & Hrx & Htx).
  apply poll_unchanged; rewrite iface_polled; [|done].
  unfold polled. rewrite (poll_Ok _ rx tx) by done. cbn [snd mem].
  intros key [-> | ->]%elem_of_KEYS.
  - by rewrite lookup_insert_ne, lookup_insert_eq.
  - by rewrite lookup_insert_eq.
Qed.
End interface_facts.

(** ** Interface: a sequence of polls *)

Lemma diffs_nonneg prev xs :
  Forall (λ d, 0 ≤ d) (diffs prev xs) ↔ nondecreasing prev xs.
Proof.
  revert prev. induction xs as [|x xs IH]; intros prev; simpl.
  - split; [done|]. intros _. constructor.
  - rewrite Forall_cons, IH. split; intros [? ?]; split; (lia || done).
Qed.

(** Along file systems in which the counters are readable, the deltas a
    tracker reports for a counter are the consecutive differences of the
    raw values, the first one taken from the stored value. *)
Lemma poll_seq_deltas nm key fss :
  key ∈ KEYS →
  ∀ self xs,
    iface self = nm →
    Forall (λ fs, readable fs nm) fss →
    readings nm key fss = Ok <$> xs →
    delta_of key <$> poll_seq fss self
    = Some <$> diffs (default 0 (mem self !! key)) xs.
Proof.
  intros Hkey. induction fss as [|fs fss IH]; intros self xs Hnm Hall Hxs.
  - destruct xs; [done|discriminate].
  - destruct xs as [|x xs]; [discriminate|].
    cbn [readings fmap list_fmap] in Hxs. injection Hxs as Hx Hxs.
    apply Forall_cons in Hall as [Hfs Hall]. subst nm.
    destruct (poll_readable fs self Hfs) as (d & Hpoll & _ & Hd).
    destruct (Hd key x Hkey Hx) as [Hget Hmem].
    cbn [poll_seq]. rewrite Hpoll. cbn [fmap list_fmap diffs delta_of].
    rewrite Hget. f_equal.
    rewrite (IH (polled fs self) xs); [by rewrite Hmem| |done|done].
    apply iface_polled.
Qed.

(** ** SpeedDB *)

Section speeddb_facts.
Context (fs : sysfs).
Implicit Types (xs : list Interface) (acc : pydict string (pydict string Z)).

Lemma pack_entries_names xs :
  ((λ x, (iface x, reported fs x)) <$> xs).*1 = iface <$> xs.
Proof. rewrite <- list_fmap_compose. by apply list_fmap_ext. Qed.

Lemma pack_loop_Ok xs acc :
  Forall (λ x, is_Ok (poll fs x).1) xs →
  pack_loop fs xs acc
  = (Ok (dict_update acc ((λ x, (iface x, reported fs x)) <$> xs)),
     polled fs <$> xs).
Proof.
  revert acc. induction xs as [|x xs IH]; intros acc Hall; [done|].
  apply Forall_cons in Hall as [Hx Hall].
  cbn [pack_loop fmap list_fmap]. unfold reported, polled.
  destruct (poll fs x) as [[d|e] x'] eqn:Hp; [|done].
  rewrite (IH _ Hall). done.
Qed.

Lemma pack_loop_Raise xs acc :
  Exists (λ x, raises (poll fs x).1) xs → raises (pack_loop fs xs acc).1.
Proof.
  revert acc. induction xs as [|x xs IH]; intros acc Hex.
  - by apply Exists_nil in Hex.
  - cbn [pack_loop]. destruct (poll fs x) as [[d|e] x'] eqn:Hp; [|done].
    apply Exists_cons in Hex as [Hx|Hex]; [by rewrite Hp in Hx|].
    specialize (IH (dict_set (iface x) d acc) Hex).
    by destruct (pack_loop fs xs (dict_set (iface x) d acc)).
Qed.

Lemma pack_loop_Ok_inv xs acc s xs' :
  pack_loop fs xs acc = (Ok s, xs') → Forall (λ x, is_Ok (poll fs x).1) xs.
Proof.
  intros Hp. apply Forall_forall. intros x Hx.
  destruct (poll fs x).1 as [d|e] eqn:Hpx; [done|].
  assert (raises (pack_loop fs xs acc).1) as Hr.
  { apply pack_loop_Raise, Exists_exists. exists x. by rewrite Hpx. }
  by rewrite Hp in Hr.
Qed.

Lemma pack_Ok_inv db s db' :
  pack fs db = (Ok s, db') →
  Forall (λ x, is_Ok (poll fs x).1) (ifaces db)
  ∧ s = dict_update [] ((λ x, (iface x, reported fs x)) <$> ifaces db)
  ∧ ifaces db' = polled fs <$> ifaces db.
Proof.
  unfold pack. intros Hp.
  destruct (pack_loop fs (ifaces db) []) as [r xs'] eqn:Hl.
  injection Hp as -> <-.
  pose proof (pack_loop_Ok_inv _ _ _ _ Hl) as Hall.
  rewrite (pack_loop_Ok _ _ Hall) in Hl. injection Hl as <- <-. done.
Qed.

Lemma Interface_init_all_names names xs :
  Interface_init_all fs names = Ok xs → iface <$> xs = names.
Proof.
  revert xs. induction names as [|n names IH]; intros xs; simpl.
  - by intros [= <-].
  - unfold Interface_init.
    pose proof (iface_polled fs {| mem := ∅; iface := n |}) as Hn.
    unfold polled in Hn.
    destruct (poll fs {| mem := ∅; iface := n |}) as [[d|e] x]; [|done].
    destruct (Interface_init_all fs names) as [xs0|e]; [|done].
    intros [= <-]. cbn in *. by rewrite Hn, (IH xs0).
Qed.
End speeddb_facts.

(** * The claims *)

(** ** Reset policy *)

(** C1, as the claim states it, fails on the scenario of the specification:
    the third reading, 1200, is below the stored 1500, and the delta
    reported is -300, not 1200. *)
Lemma reset_delta_counterexample :
  readings "eth0" "rx_bytes" scenario = [Ok 1000; Ok 1500; Ok 1200; Ok 1800]
  ∧ delta_of "rx_bytes" <$> poll_seq scenario (fresh "eth0")
    = [Some 1000; Some 500; Some (-300); Some 600]
  ∧ ¬ (delta_of "rx_bytes" <$> poll_seq scenario (fresh "eth0")) !! 2%nat
      = Some (Some 1200).
Proof.
  split; [by vm_compute|]. split; [by vm_compute|].
  vm_compute. intros H. discriminate H.
Qed.

(** C1 (amended): when the raw value [x] of a counter is strictly below the
    value [prev] stored for it, the poll reports the plain difference
    [x - prev], a negative number (there is no reset policy), stores [x],
    and the next poll subtracts from [x]. *)
Theorem decrease_reports_negative_difference fs self key x prev :
  key ∈ KEYS →
  readable fs (iface self) →
  raw fs (iface self) key = Ok x →
  mem self !! key = Some prev →
  x < prev →
  ∃ d, poll fs self = (Ok d, polled fs self)
     ∧ dict_get key d = Some (x - prev)
     ∧ x - prev < 0
     ∧ mem (polled fs self) !! key = Some x
     ∧ ∀ fs' y, readable fs' (iface self) →
         raw fs' (iface self) key = Ok y →
         delta_of key (poll fs' (polled fs self)).1 = Some (y - x).
Proof.
  intros Hkey Hfs Hx Hprev Hlt.
  destruct (poll_readable fs self Hfs) as (d & Hpoll & _ & Hd).
  destruct (Hd key x Hkey Hx) as [Hget Hmem]. rewrite Hprev in Hget.
  exists d. repeat split; [done|done|lia|done|].
  intros fs' y Hfs' Hy. rewrite <- (iface_polled fs self) in Hfs', Hy.
  destruct (poll_readable fs' _ Hfs') as (d' & Hpoll' & _ & Hd').
  destruct (Hd' key y Hkey Hy) as [Hget' _].
  rewrite Hpoll'. cbn [fst delta_of]. by rewrite Hget', Hmem.
Qed.

Lemma decrease_reports_negative_difference_witness :
  ∃ d, poll (eth0_at 1200) {| mem := {["rx_bytes" := 1500]}; iface := "eth0" |}
       = (Ok d, polled (eth0_at 1200)
                  {| mem := {["rx_bytes" := 1500]}; iface := "eth0" |})
     ∧ dict_get "rx_bytes" d = Some (1200 - 1500)
     ∧ 1200 - 1500 < 0
     ∧ mem (polled (eth0_at 1200)
              {| mem := {["rx_bytes" := 1500]}; iface := "eth0" |})
         !! "rx_bytes" = Some 1200
     ∧ ∀ fs' y, readable fs' "eth0" →
         raw fs' "eth0" "rx_bytes" = Ok y →
         delta_of "rx_bytes"
           (poll fs' (polled (eth0_at 1200)
                        {| mem := {["rx_bytes" := 1500]}; iface := "eth0" |})).1
         = Some (y - 1200).
Proof.
  apply (decrease_reports_negative_difference (eth0_at 1200)
           {| mem := {["rx_bytes" := 1500]}; iface := "eth0" |}
           "rx_bytes" 1200 1500).
  - apply list_elem_of_here.
  - repeat constructor.
  - reflexivity.
  - reflexivity.
  - lia.
Defined.

(** ** Sign of the deltas *)

(** C2, as the claim states it, fails: the readings 1000, 1500, 1200, 1800
    are all non-negative, and the third delta is negative. *)
Lemma nonneg_deltas_counterexample :
  Forall (λ r, ∃ x, r = Ok x ∧ 0 ≤ x) (readings "eth0" "rx_bytes" scenario)
  ∧ ¬ Forall (λ o, ∃ d, o = Some d ∧ 0 ≤ d)
        (delta_of "rx_bytes" <$> poll_seq scenario (fresh "eth0")).
Proof.
  split.
  - repeat constructor; eexists; (split; [reflexivity|done]).
  - intros H. apply (Forall_lookup_1 _ _ 2%nat (Some (-300))) in H.
    + destruct H as (d & [= <-] & Hd). lia.
    + by vm_compute.
Qed.

Lemma Forall_Some_nonneg (ds : list Z) :
  Forall (λ o, ∃ d, o = Some d ∧ 0 ≤ d) (Some <$> ds)
  ↔ Forall (λ d, 0 ≤ d) ds.
Proof.
  rewrite Forall_fmap. apply Forall_proper; [|done].
  intros d. simpl. split.
  - by intros (d' & [= <-] & ?).
  - intros ?. by exists d.
Qed.

(** C2 (amended): for a sequence of non-negative raw readings of a counter,
    starting with the one [__init__] takes, every delta the polls compute is
    ≥ 0 exactly when the sequence never decreases. *)
Theorem deltas_nonneg_iff_nondecreasing nm key fs0 fss x0 xs :
  key ∈ KEYS →
  Forall (λ fs, readable fs nm) (fs0 :: fss) →
  readings nm key (fs0 :: fss) = Ok <$> (x0 :: xs) →
  Forall (λ x, 0 ≤ x) (x0 :: xs) →
  Forall (λ o, ∃ d, o = Some d ∧ 0 ≤ d)
    (delta_of key <$> poll_seq (fs0 :: fss) (fresh nm))
  ↔ nondecreasing x0 xs.
Proof.
  intros Hkey Hall Hxs Hpos.
  rewrite (poll_seq_deltas nm key (fs0 :: fss) Hkey (fresh nm) (x0 :: xs))
    by done.
  rewrite Forall_Some_nonneg. cbn [fresh mem]. rewrite lookup_empty.
  cbn [default]. rewrite diffs_nonneg. cbn [nondecreasing].
  apply Forall_cons in Hpos as [H0 _]. tauto.
Qed.

Lemma deltas_nonneg_iff_nondecreasing_witness :
  Forall (λ o, ∃ d, o = Some d ∧ 0 ≤ d)
    (delta_of "rx_bytes"
       <$> poll_seq [eth0_at 1000; eth0_at 1500; eth0_at 1500]
             (fresh "eth0"))
  ↔ nondecreasing 1000 [1500; 1500].
Proof.
  apply (deltas_nonneg_iff_nondecreasing "eth0" "rx_bytes"
           (eth0_at 1000) [eth0_at 1500; eth0_at 1500] 1000 [1500; 1500]).
  - apply list_elem_of_here.
  - repeat constructor.
  - reflexivity.
  - repeat constructor; lia.
Defined.

(** ** Baseline and consecutive differences *)

(** C3, as the claim states it, fails on the non-decreasing readings 1000,
    1500: the poll that establishes the baseline computes 1000, not 0, and
    the first delta reported after construction is 500, not 0. *)
Lemma first_delta_counterexample :
  nondecreasing 0 [1000; 1500]
  ∧ readings "eth0" "rx_bytes" [eth0_at 1000; eth0_at 1500]
    = [Ok 1000; Ok 1500]
  ∧ ¬ delta_of "rx_bytes" (poll (eth0_at 1000) (fresh "eth0")).1 = Some 0
  ∧ ∃ self0, Interface_init (eth0_at 1000) "eth0" = Ok self0
      ∧ ¬ delta_of "rx_bytes" (poll (eth0_at 1500) self0).1 = Some 0.
Proof.
  split; [simpl; lia|]. split; [reflexivity|]. split.
  - vm_compute. intros H. discriminate H.
  - eexists. split; [reflexivity|]. vm_compute. intros H. discriminate H.
Qed.

(** C3 (amended): for a non-decreasing sequence of raw readings
    [x0, x1, ..., xn] of a counter, [xi ≥ 0], the poll of [__init__] reads
    [x0], computes the delta [x0] (not 0), which [__init__] drops, and
    stores [x0]; each later poll reports the consecutive difference
    [x(i) - x(i-1)]. *)
Theorem baseline_then_consecutive_differences nm key fs0 fss x0 xs :
  key ∈ KEYS →
  Forall (λ fs, readable fs nm) (fs0 :: fss) →
  readings nm key (fs0 :: fss) = Ok <$> (x0 :: xs) →
  nondecreasing 0 (x0 :: xs) →
  ∃ d0 self0,
    poll fs0 (fresh nm) = (Ok d0, self0)
    ∧ dict_get key d0 = Some x0
    ∧ Interface_init fs0 nm = Ok self0
    ∧ mem self0 !! key = Some x0
    ∧ delta_of key <$> poll_seq fss self0 = Some <$> diffs x0 xs.
Proof.
  intros Hkey Hall Hxs _.
  apply Forall_cons in Hall as [Hfs0 Hall].
  cbn [readings fmap list_fmap] in Hxs. injection Hxs as Hx0 Hxs.
  destruct (poll_readable fs0 (fresh nm) Hfs0) as (d0 & Hpoll & _ & Hd).
  destruct (Hd key x0 Hkey Hx0) as [Hget Hmem].
  cbn [fresh mem] in Hget. rewrite lookup_empty in Hget. cbn [default] in Hget.
  rewrite Z.sub_0_r in Hget.
  exists d0, (polled fs0 (fresh nm)). repeat split; try done.
  - unfold Interface_init. fold (fresh nm). by rewrite Hpoll.
  - rewrite (poll_seq_deltas nm key fss Hkey _ xs); [by rewrite Hmem| |done|done].
    apply iface_polled.
Qed.

Lemma baseline_then_consecutive_differences_witness :
  ∃ d0 self0,
    poll (eth0_at 1000) (fresh "eth0") = (Ok d0, self0)
    ∧ dict_get "rx_bytes" d0 = Some 1000
    ∧ Interface_init (eth0_at 1000) "eth0" = Ok self0
    ∧ mem self0 !! "rx_bytes" = Some 1000
    ∧ delta_of "rx_bytes" <$> poll_seq [eth0_at 1500; eth0_at 1800] self0
      = Some <$> diffs 1000 [1500; 1800].
Proof.
  apply (baseline_then_consecutive_differences "eth0" "rx_bytes"
           (eth0_at 1000) [eth0_at 1500; eth0_at 1800] 1000 [1500; 1800]).
  - apply list_elem_of_here.
  - repeat constructor.
  - reflexivity.
  - simpl. lia.
Defined.

(** ** Failed reads *)

(** C6: when the read of a counter raises, [_delta] propagates the
    exception and leaves the object as it was; for a counter of [KEYS] the
    poll raises as well, and the value stored for that counter is the one
    stored before. *)
Theorem failed_read_keeps_baseline fs self key e :
  key ∈ KEYS →
  raw fs (iface self) key = Raise e →
  _delta fs key self = (Raise e, self)
  ∧ raises (poll fs self).1
  ∧ mem (polled fs self) !! key = mem self !! key.
Proof.
  intros Hkey He. split; [by apply _delta_Raise|]. unfold polled.
  destruct (elem_of_KEYS key Hkey) as [-> | ->].
  - by rewrite (poll_Raise_rx fs self e).
  - destruct (raw fs (iface self) "rx_bytes") as [rx|e'] eqn:Hrx.
    + rewrite (poll_Raise_tx fs self rx e) by done. cbn [fst snd mem].
      split; [done|]. by rewrite lookup_insert_ne.
    + by rewrite (poll_Raise_rx fs self e').
Qed.

Lemma failed_read_keeps_baseline_witness :
  _delta (sysfs_of [(KERNEL_PATH "eth0" "rx_bytes", 1200)]) "tx_bytes"
    {| mem := {["rx_bytes" := 1000; "tx_bytes" := 7]}; iface := "eth0" |}
  = (Raise OSError,
     {| mem := {["rx_bytes" := 1000; "tx_bytes" := 7]}; iface := "eth0" |})
  ∧ raises (poll (sysfs_of [(KERNEL_PATH "eth0" "rx_bytes", 1200)])
              {| mem := {["rx_bytes" := 1000; "tx_bytes" := 7]};
                 iface := "eth0" |}).1
  ∧ mem (polled (sysfs_of [(KERNEL_PATH "eth0" "rx_bytes", 1200)])
           {| mem := {["rx_bytes" := 1000; "tx_bytes" := 7]};
              iface := "eth0" |}) !! "tx_bytes"
    = mem {| mem := {["rx_bytes" := 1000; "tx_bytes" := 7]};
             iface := "eth0" |} !! "tx_bytes".
Proof.
  apply (failed_read_keeps_baseline
           (sysfs_of [(KERNEL_PATH "eth0" "rx_bytes", 1200)])
           {| mem := {["rx_bytes" := 1000; "tx_bytes" := 7]};
              iface := "eth0" |} "tx_bytes" OSError).
  - apply list_elem_of_further, list_elem_of_here.
  - reflexivity.
Defined.

(** C9: a poll is not atomic across the two counters. When [rx_bytes] is
    read and [tx_bytes] raises, the poll raises, yet the value stored for
    [rx_bytes] is already the new raw value (the one for [tx_bytes] is
    untouched): the next poll reports [rx_bytes] from the new value on, and
    the difference computed by the failed poll is reported by no poll. *)
Theorem poll_not_atomic fs self rx e :
  raw fs (iface self) "rx_bytes" = Ok rx →
  raw fs (iface self) "tx_bytes" = Raise e →
  poll fs self
  = (Raise e,
     {| mem := <["rx_bytes" := rx]> (mem self); iface := iface self |})
  ∧ mem (polled fs self) !! "rx_bytes" = Some rx
  ∧ mem (polled fs self) !! "tx_bytes" = mem self !! "tx_bytes"
  ∧ ∀ fs' rx', readable fs' (iface self) →
      raw fs' (iface self) "rx_bytes" = Ok rx' →
      delta_of "rx_bytes" (poll fs' (polled fs self)).1 = Some (rx' - rx).
Proof.
  intros Hrx Htx. unfold polled.
  rewrite (poll_Raise_tx fs self rx e) by done. cbn [snd mem].
  split; [done|]. split; [apply lookup_insert_eq|].
  split; [by rewrite lookup_insert_ne|].
  intros fs' rx' Hfs' Hrx'.
  set (self' := {| mem := <["rx_bytes" := rx]> (mem self);
                   iface := iface self |}).
  destruct (poll_readable fs' self' Hfs') as (d & Hpoll & _ & Hd).
  destruct (Hd "rx_bytes" rx' (list_elem_of_here _ _) Hrx') as [Hget _].
  rewrite Hpoll. cbn [fst delta_of]. rewrite Hget. subst self'. cbn [mem].
  by rewrite lookup_insert_eq.
Qed.

Lemma poll_not_atomic_witness :
  poll (sysfs_of [(KERNEL_PATH "eth0" "rx_bytes", 1200)])
    {| mem := {["rx_bytes" := 1000; "tx_bytes" := 7]}; iface := "eth0" |}
  = (Raise OSError,
     {| mem := <["rx_bytes" := 1200]>
                 {["rx_bytes" := 1000; "tx_bytes" := 7]};
        iface := "eth0" |})
  ∧ delta_of "rx_bytes"
      (poll (eth0_at 1300)
         (polled (sysfs_of [(KERNEL_PATH "eth0" "rx_bytes", 1200)])
            {| mem := {["rx_bytes" := 1000; "tx_bytes" := 7]};
               iface := "eth0" |})).1
    = Some (1300 - 1200).
Proof.
  destruct (poll_not_atomic
              (sysfs_of [(KERNEL_PATH "eth0" "rx_bytes", 1200)])
              {| mem := {["rx_bytes" := 1000; "tx_bytes" := 7]};
                 iface := "eth0" |} 1200 OSError)
    as (Hpoll & _ & _ & Hnext).
  - reflexivity.
  - reflexivity.
  - split; [exact Hpoll|].
    apply (Hnext (eth0_at 1300) 1300); [repeat constructor|reflexivity].
Defined.

(** ** Snapshots *)

(** C5: if the poll of one tracker raises, [pack] raises: it returns no
    snapshot, not even one with the deltas of the other trackers. *)
Theorem failed_poll_fails_snapshot fs db x :
  x ∈ ifaces db →
  raises (poll fs x).1 →
  ∃ e, (pack fs db).1 = Raise e.
Proof.
  intros Hx Hr.
  assert (raises (pack_loop fs (ifaces db) []).1) as Hl.
  { apply pack_loop_Raise, Exists_exists. by exists x. }
  unfold pack. destruct (pack_loop fs (ifaces db) []) as [[s|e] xs]; [done|].
  by exists e.
Qed.

Lemma failed_poll_fails_snapshot_witness :
  ∃ e, (pack (eth0_at 1200)
          {| ifaces := [ {| mem := {["rx_bytes" := 1000; "tx_bytes" := 0]};
                            iface := "eth0" |};
                         {| mem := {["rx_bytes" := 5; "tx_bytes" := 5]};
                            iface := "wlan0" |} ] |}).1
       = Raise e.
Proof.
  apply (failed_poll_fails_snapshot (eth0_at 1200) _
           {| mem := {["rx_bytes" := 5; "tx_bytes" := 5]};
              iface := "wlan0" |}).
  - cbn [ifaces]. apply list_elem_of_further, list_elem_of_here.
  - vm_compute. exact I.
Defined.

(** C7: a second [pack] taken while no raw counter value has changed
    returns the same keys, with zero for every counter of every interface,
    and leaves the trackers as they are. *)
Theorem second_snapshot_all_zero fs db s1 db1 :
  pack fs db = (Ok s1, db1) →
  ∃ s2, pack fs db1 = (Ok s2, db1)
     ∧ dict_keys s2 = dict_keys s1
     ∧ (∀ x, x ∈ ifaces db → dict_get (iface x) s2 = Some zero_deltas)
     ∧ Forall (λ d, d = zero_deltas) (dict_values s2).
Proof.
  intros (Hall & -> & Hxs)%pack_Ok_inv.
  assert (Forall (λ x, poll fs (polled fs x) = (Ok zero_deltas, polled fs x))
            (ifaces db)) as Htwice.
  { eapply Forall_impl; [exact Hall|]. intros x. apply poll_twice. }
  assert (Forall (λ x, is_Ok (poll fs x).1) (ifaces db1)) as Hall1.
  { rewrite Hxs, Forall_fmap. eapply Forall_impl; [exact Htwice|].
    intros x Hx. simpl. by rewrite Hx. }
  set (s2 := dict_update [] ((λ x, (iface x, reported fs x)) <$> ifaces db1)).
  assert (polled fs <$> ifaces db1 = ifaces db1) as Hsame.
  { rewrite Hxs, <- list_fmap_compose. apply Forall_fmap_ext_1.
    eapply Forall_impl; [exact Htwice|]. intros x Hx. simpl.
    unfold polled at 1. by rewrite Hx. }
  assert (Forall (λ d, d = zero_deltas) (dict_values s2)) as Hzero.
  { apply dict_values_update; [|constructor].
    rewrite Hxs, <- !list_fmap_compose, Forall_fmap.
    eapply Forall_impl; [exact Htwice|]. intros x Hx. simpl.
    unfold reported. by rewrite Hx. }
  assert (dict_keys s2
          = dict_keys (dict_update [] ((λ x, (iface x, reported fs x))
                                         <$> ifaces db))) as Hkeys.
  { apply dict_keys_update_ext; [done|].
    rewrite Hxs, <- !list_fmap_compose. apply list_fmap_ext.
    intros i x _. simpl. apply iface_polled. }
  exists s2. split; [|split; [done|split; [|done]]].
  - unfold pack. rewrite (pack_loop_Ok fs _ [] Hall1), Hsame.
    destruct db1. done.
  - intros x Hx.
    assert (iface x ∈ dict_keys s2) as Hin.
    { rewrite Hkeys. apply elem_of_dict_keys_update. right.
      rewrite <- list_fmap_compose. apply list_elem_of_fmap. by exists x. }
    destruct (dict_keys_get _ _ Hin) as [d Hd]. rewrite Hd. f_equal.
    apply dict_get_Some_values in Hd.
    by apply (proj1 (Forall_forall _ _) Hzero).
Qed.

Lemma second_snapshot_all_zero_witness :
  ∃ s2, pack (eth0_at 1500) (pack (eth0_at 1500)
            {| ifaces := [ {| mem := {["rx_bytes" := 1000; "tx_bytes" := 0]};
                              iface := "eth0" |} ] |}).2
        = (Ok s2, (pack (eth0_at 1500)
            {| ifaces := [ {| mem := {["rx_bytes" := 1000; "tx_bytes" := 0]};
                              iface := "eth0" |} ] |}).2)
     ∧ dict_keys s2 = dict_keys [("eth0", [("rx_bytes", 500); ("tx_bytes", 0)])]
     ∧ (∀ x, x ∈ [ {| mem := {["rx_bytes" := 1000; "tx_bytes" := 0]};
                      iface := "eth0" |} ] →
             dict_get (iface x) s2 = Some zero_deltas)
     ∧ Forall (λ d, d = zero_deltas) (dict_values s2).
Proof.
  apply (second_snapshot_all_zero (eth0_at 1500)
           {| ifaces := [ {| mem := {["rx_bytes" := 1000; "tx_bytes" := 0]};
                             iface := "eth0" |} ] |}).
  reflexivity.
Defined.

(** ** An interface listed more than once *)

(** C10: [SpeedDB(names)] builds one tracker per entry of [names], in
    order, duplicates included. A [pack] on the trackers of that list, in
    whatever state they are, polls every one of them; the snapshot holds
    each name of the list exactly once, and under a name the dict returned
    by the last tracker listed with that name. *)
Theorem duplicate_names_last_wins fs0 fs names db0 db s db' :
  SpeedDB_init fs0 names = Ok db0 →
  iface <$> ifaces db = names →
  pack fs db = (Ok s, db') →
  iface <$> ifaces db0 = names
  ∧ ifaces db' = polled fs <$> ifaces db
  ∧ iface <$> ifaces db' = names
  ∧ NoDup (dict_keys s)
  ∧ (∀ nm, nm ∈ dict_keys s ↔ nm ∈ names)
  ∧ ∀ pre x post,
      ifaces db = pre ++ x :: post →
      iface x ∉ iface <$> post →
      (poll fs x).1 = Ok (reported fs x)
      ∧ dict_get (iface x) s = Some (reported fs x).
Proof.
  intros Hinit Hnames (Hall & -> & Hxs)%pack_Ok_inv.
  split.
  { unfold SpeedDB_init in Hinit.
    destruct (Interface_init_all fs0 names) as [xs|e] eqn:Hi; [|done].
    injection Hinit as <-. by apply (Interface_init_all_names fs0). }
  split; [done|]. split.
  { rewrite Hxs, <- list_fmap_compose, <- Hnames. apply list_fmap_ext.
    intros i x _. apply iface_polled. }
  split; [apply NoDup_dict_keys_update, NoDup_nil_2|]. split.
  { intros nm. rewrite elem_of_dict_keys_update, pack_entries_names, Hnames.
    cbn [dict_keys fmap list_fmap]. rewrite elem_of_nil. tauto. }
  intros pre x post Hsplit Hlast. split.
  - assert (is_Ok (poll fs x).1) as Hx.
    { apply (proj1 (Forall_forall _ _) Hall). rewrite Hsplit. set_solver. }
    unfold reported. by destruct (poll fs x).1.
  - rewrite Hsplit, fmap_app, fmap_cons.
    apply dict_get_update_last. by rewrite pack_entries_names.
Qed.

Lemma duplicate_names_last_wins_witness :
  let first := {| mem := {["rx_bytes" := 1000; "tx_bytes" := 0]};
                  iface := "eth0" |} in
  let last := {| mem := {["rx_bytes" := 1200; "tx_bytes" := 0]};
                 iface := "eth0" |} in
  ∃ db0 s db',
    SpeedDB_init (eth0_at 1000) ["eth0"; "eth0"] = Ok db0
    ∧ pack (eth0_at 1500) {| ifaces := [first; last] |} = (Ok s, db')
    ∧ s = [("eth0", [("rx_bytes", 300); ("tx_bytes", 0)])]
    ∧ length (ifaces db0) = 2%nat
    ∧ ifaces db' = polled (eth0_at 1500) <$> [first; last]
    ∧ NoDup (dict_keys s)
    ∧ dict_get (iface last) s = Some (reported (eth0_at 1500) last).
Proof.
  intros first last. eexists _, _, _.
  split; [reflexivity|]. split; [reflexivity|]. split; [reflexivity|].
  destruct (duplicate_names_last_wins (eth0_at 1000) (eth0_at 1500)
              ["eth0"; "eth0"] _ {| ifaces := [first; last] |} _ _
              eq_refl eq_refl eq_refl)
    as (Hn & Hpolled & _ & Hnd & _ & Hlast).
  split; [by rewrite <- (length_fmap iface), Hn|].
  split; [exact Hpolled|]. split; [exact Hnd|].
  apply (Hlast [first] last []); [reflexivity|].
  cbn [fmap list_fmap]. apply not_elem_of_nil.
Defined.

(** ** Dry mode *)

Lemma send_dry w q speed :
  dry q = true →
  send w q speed
  = match pack (files w) speed with
    | (Ok s, speed') =>
        (Ok tt, speed',
         [Print stdout
            (json_dumps {| origin := node q; when := clock w; data := s |})])
    | (Raise e, speed') => (Raise e, speed', [])
    end.
Proof.
  intros Hdry. unfold send. rewrite Hdry.
  by destruct (pack (files w) speed) as [[s|e] speed'].
Qed.

Lemma send_dry_local w q speed :
  dry q = true → Forall (λ ev, network_op ev = false) (send w q speed).2.
Proof.
  intros Hdry. rewrite send_dry by done.
  destruct (pack (files w) speed) as [[s|e] speed']; by repeat constructor.
Qed.

Lemma beacon_loop_dry_local q ws :
  dry q = true →
  ∀ speed, Forall (λ ev, network_op ev = false) (beacon_loop q speed ws).2.
Proof.
  intros Hdry. induction ws as [|w ws IH]; intros speed; [constructor|].
  cbn [beacon_loop]. pose proof (send_dry_local w q speed Hdry) as Hsend.
  destruct (send w q speed) as [[[[]|e] speed'] evs]; [|done].
  specialize (IH speed').
  destruct (beacon_loop q speed' ws) as [r evs']. cbn [snd] in *.
  apply Forall_app. split; [done|]. by constructor.
Qed.

(** In dry mode [send] prints the envelope, serialised by [json.dumps],
    as one line on standard output and does nothing else to the outside;
    when [pack] raises it does nothing at all. No call of [send], however
    many turns the loop takes, connects or sends. *)
Lemma send_dry_outcomes w q speed :
  dry q = true →
  (∀ s, (pack (files w) speed).1 = Ok s →
     (send w q speed).1.1 = Ok tt
     ∧ (send w q speed).2
       = [Print stdout
            (json_dumps {| origin := node q; when := clock w; data := s |})])
  ∧ (∀ e, (pack (files w) speed).1 = Raise e →
       (send w q speed).1.1 = Raise e ∧ (send w q speed).2 = [])
  ∧ Forall (λ ev, network_op ev = false) (send w q speed).2
  ∧ ∀ ws, Forall (λ ev, network_op ev = false) (beacon_loop q speed ws).2.
Proof.
  intros Hdry. rewrite send_dry by done.
  split; [|split; [|split]].
  - intros s Hs. by destruct (pack (files w) speed) as [[s'|e] speed'];
      simplify_eq/=.
  - intros e He. by destruct (pack (files w) speed) as [[s'|e'] speed'];
      simplify_eq/=.
  - rewrite <- send_dry by done. by apply send_dry_local.
  - intros ws. by apply beacon_loop_dry_local.
Qed.

(** ** Building the Queue *)

Lemma setattr_curve_endpoints w o value z0 :
  endpoints (setattr_curve w o value z0).2 = endpoints z0.
Proof.
  unfold setattr_curve. destruct value as [key|]; [|done].
  destruct (zmq_setsockopt (zmq w) o key); [|done]. by destruct o.
Qed.

Lemma apply_endpoints w c z0 : endpoints (apply w c z0).2 = endpoints z0.
Proof.
  unfold apply. destruct (client c) as [cp cs], (server c) as [sp ss].
  unfold mbind, Eff_bind.
  pose proof (setattr_curve_endpoints w CURVE_SECRETKEY cs z0) as H1.
  destruct (setattr_curve w CURVE_SECRETKEY cs z0) as [[[]|e] z1]; [|done].
  pose proof (setattr_curve_endpoints w CURVE_PUBLICKEY (Some cp) z1) as H2.
  destruct (setattr_curve w CURVE_PUBLICKEY (Some cp) z1) as [[[]|e] z2];
    cbn [snd] in *; [|congruence].
  rewrite setattr_curve_endpoints. congruence.
Qed.

(** A [Queue] that was built has created a context and a socket and has
    connected the socket to its destination, whether [dry] is set or not. *)
Lemma Queue_init_Ok_inv w dest nd crypto dry_ q evs :
  Queue_init w dest nd crypto dry_ = (Ok q, evs) →
  evs = [ZmqContext; ZmqSocketPush; ZmqConnect dest]
  ∧ node q = nd
  ∧ dry q = dry_
  ∧ endpoints (z q) = [dest].
Proof.
  unfold Queue_init.
  destruct (zmq_Context (zmq w)); [|done].
  destruct (zmq_socket (zmq w)); [|done].
  set (z0 := {| curve_secretkey := None; curve_publickey := None;
                curve_serverkey := None; endpoints := [] |}).
  assert (endpoints (match crypto with
                     | Some c => apply w c z0
                     | None => (Ok tt, z0)
                     end).2 = []) as Hend.
  { destruct crypto as [c|]; [|done]. by rewrite apply_endpoints. }
  destruct (match crypto with
            | Some c => apply w c z0
            | None => (Ok tt, z0)
            end) as [[[]|e] z1]; [|done].
  destruct (zmq_connect (zmq w) dest); [|done].
  intros [= <- <-]. cbn [node dry z endpoints snd] in *. by rewrite Hend.
Qed.

(** A constructor that raises has connected nothing. *)
Lemma Queue_init_Raise_inv w dest nd crypto dry_ e evs :
  Queue_init w dest nd crypto dry_ = (Raise e, evs) →
  Forall (λ ev, network_op ev = false ∧ is_output ev = false
                ∧ is_sleep ev = false ∧ is_warning ev = false) evs.
Proof.
  unfold Queue_init.
  destruct (zmq_Context (zmq w)); [|intros [= _ <-]; constructor].
  destruct (zmq_socket (zmq w)); [|intros [= _ <-]; by repeat constructor].
  destruct (match crypto with
            | Some c => apply w c _
            | None => _
            end) as [[[]|e'] z1]; [|intros [= _ <-]; by repeat constructor].
  destruct (zmq_connect (zmq w) dest); [done|].
  intros [= _ <-]; by repeat constructor.
Qed.

(** C4, as the claim states it, fails: a dry run opens a network
    connection. [Queue.__init__] connects the socket with [dry] set, and
    the connect is the third event of a dry run of [beacon]. *)
Lemma dry_mode_connect_counterexample :
  Args.dry (args_of true ["eth0"]) = true
  ∧ Queue_init (world_of 10 (stats "eth0" 1000 0))
      "tcp://127.0.0.1:8733" "node" None true
    = (Ok (queue_of "node" true "tcp://127.0.0.1:8733"),
       [ZmqContext; ZmqSocketPush; ZmqConnect "tcp://127.0.0.1:8733"])
  ∧ (beacon (args_of true ["eth0"]) (world_of 10 (stats "eth0" 1000 0))
       [world_of 11 (stats "eth0" 1500 0)]).2 !! 2%nat
    = Some (ZmqConnect "tcp://127.0.0.1:8733")
  ∧ ¬ Forall (λ ev, network_op ev = false)
        (beacon (args_of true ["eth0"]) (world_of 10 (stats "eth0" 1000 0))
           [world_of 11 (stats "eth0" 1500 0)]).2.
Proof.
  split; [reflexivity|]. split; [reflexivity|]. split; [reflexivity|].
  intros H.
  apply (Forall_lookup_1 _ _ 2%nat (ZmqConnect "tcp://127.0.0.1:8733")) in H;
    [discriminate H|reflexivity].
Qed.

(** C4 (amended): a [Queue] built with [dry] set has created its socket
    and connected it to the destination, as without [dry]: that connect is
    the one network operation of dry mode. After it, [send] prints the
    envelope, serialised by [json.dumps], as one line on standard output,
    or nothing at all when [pack] raises, and no call of [send], however
    many turns the loop takes, connects or sends. *)
Theorem dry_mode_connects_then_only_prints w0 dest nd crypto q evs :
  Queue_init w0 dest nd crypto true = (Ok q, evs) →
  evs = [ZmqContext; ZmqSocketPush; ZmqConnect dest]
  ∧ network_ops evs = [ZmqConnect dest]
  ∧ node q = nd
  ∧ dry q = true
  ∧ ∀ w speed,
      (∀ s, (pack (files w) speed).1 = Ok s →
         (send w q speed).1.1 = Ok tt
         ∧ (send w q speed).2
           = [Print stdout
                (json_dumps
                   {| origin := nd; when := clock w; data := s |})])
      ∧ (∀ e, (pack (files w) speed).1 = Raise e →
           (send w q speed).1.1 = Raise e ∧ (send w q speed).2 = [])
      ∧ Forall (λ ev, network_op ev = false) (send w q speed).2
      ∧ ∀ ws, Forall (λ ev, network_op ev = false)
                (beacon_loop q speed ws).2.
Proof.
  intros (-> & Hnode & Hdry & _)%Queue_init_Ok_inv.
  split; [done|]. split; [done|]. split; [done|]. split; [done|].
  intros w speed. rewrite <- Hnode. by apply send_dry_outcomes.
Qed.

Lemma dry_mode_connects_then_only_prints_witness :
  [ZmqContext; ZmqSocketPush; ZmqConnect "tcp://127.0.0.1:8733"]
  = [ZmqContext; ZmqSocketPush; ZmqConnect "tcp://127.0.0.1:8733"]
  ∧ network_ops
      [ZmqContext; ZmqSocketPush; ZmqConnect "tcp://127.0.0.1:8733"]
    = [ZmqConnect "tcp://127.0.0.1:8733"]
  ∧ node (queue_of "node" true "tcp://127.0.0.1:8733") = "node"
  ∧ dry (queue_of "node" true "tcp://127.0.0.1:8733") = true
  ∧ ∀ w speed,
      (∀ s, (pack (files w) speed).1 = Ok s →
         (send w (queue_of "node" true "tcp://127.0.0.1:8733") speed).1.1
         = Ok tt
         ∧ (send w (queue_of "node" true "tcp://127.0.0.1:8733") speed).2
           = [Print stdout
                (json_dumps
                   {| origin := "node"; when := clock w; data := s |})])
      ∧ (∀ e, (pack (files w) speed).1 = Raise e →
           (send w (queue_of "node" true "tcp://127.0.0.1:8733") speed).1.1
           = Raise e
           ∧ (send w (queue_of "node" true "tcp://127.0.0.1:8733") speed).2
             = [])
      ∧ Forall (λ ev, network_op ev = false)
          (send w (queue_of "node" true "tcp://127.0.0.1:8733") speed).2
      ∧ ∀ ws, Forall (λ ev, network_op ev = false)
                (beacon_loop (queue_of "node" true "tcp://127.0.0.1:8733")
                   speed ws).2.
Proof.
  apply (dry_mode_connects_then_only_prints
           (world_of 10 (stats "eth0" 1000 0))
           "tcp://127.0.0.1:8733" "node" None).
  reflexivity.
Defined.

(** In non-dry mode a successful [send] hands the envelope to the socket
    with [send_json] and prints nothing. *)
Lemma send_not_dry w q speed s :
  dry q = false →
  (pack (files w) speed).1 = Ok s →
  (send w q speed).2
  = [ZmqSendJson {| origin := node q; when := clock w; data := s |}].
Proof.
  intros Hdry Hs. unfold send. rewrite Hdry.
  by destruct (pack (files w) speed) as [[s'|e] speed']; simplify_eq/=.
Qed.

(** ** The whole run *)

(** A dry run of the scenario: the socket is connected at start-up, then
    each turn prints one line. *)
Example beacon_dry_run :
  beacon (args_of true ["eth0"])
    (world_of 10 (stats "eth0" 1000 0))
    [world_of 10 (stats "eth0" 1500 0); world_of 11 (stats "eth0" 1200 0)]
  = (Running,
     [ZmqContext; ZmqSocketPush; ZmqConnect "tcp://127.0.0.1:8733";
      Print stdout
        (json_dumps {| origin := "node"; when := 10;
                       data := [("eth0", [("rx_bytes", 500); ("tx_bytes", 0)])]
                    |});
      Sleep 1;
      Print stdout
        (json_dumps {| origin := "node"; when := 11;
                       data := [("eth0", [("rx_bytes", -300); ("tx_bytes", 0)])]
                    |});
      Sleep 1]).
Proof. reflexivity. Qed.

(** * Further properties of the code *)

(** ** Statistics paths *)

Lemma list_ascii_of_string_app s1 s2 :
  String.list_ascii_of_string (s1 +:+ s2)
  = String.list_ascii_of_string s1 ++ String.list_ascii_of_string s2.
Proof. induction s1 as [|a s1 IH]; simpl; [done|]. by rewrite IH. Qed.

Lemma string_app_inj_2 s1 s2 t1 t2 :
  length (String.list_ascii_of_string t1)
  = length (String.list_ascii_of_string t2) →
  s1 +:+ t1 = s2 +:+ t2 → s1 = s2 ∧ t1 = t2.
Proof.
  intros Hlen Heq. apply (f_equal String.list_ascii_of_string) in Heq.
  rewrite !list_ascii_of_string_app in Heq.
  apply app_inj_2 in Heq as [H1 H2]; [|done].
  apply (f_equal String.string_of_list_ascii) in H1, H2.
  by rewrite !String.string_of_list_ascii_of_string in H1, H2.
Qed.

(** X1: the path strings [KERNEL_PATH] builds for two counters of [KEYS]
    are equal only if the interface names are equal and the counters are
    the same, whatever characters the names hold. This is about the strings
    handed to [open]: two different paths can still name one file. *)
Theorem KERNEL_PATH_inj nm1 key1 nm2 key2 :
  key1 ∈ KEYS →
  key2 ∈ KEYS →
  KERNEL_PATH nm1 key1 = KERNEL_PATH nm2 key2 →
  nm1 = nm2 ∧ key1 = key2.
Proof.
  intros H1 H2 Heq. unfold KERNEL_PATH in Heq.
  apply (inj (String.append "/sys/class/net/")) in Heq.
  apply string_app_inj_2 in Heq as [Hnm Hkey].
  - split; [done|]. by apply (inj (String.append "/statistics/")) in Hkey.
  - by destruct (elem_of_KEYS _ H1) as [-> | ->],
                (elem_of_KEYS _ H2) as [-> | ->].
Qed.

Lemma KERNEL_PATH_inj_witness :
  "eth0" = "eth0" ∧ "tx_bytes" = "tx_bytes".
Proof.
  apply (KERNEL_PATH_inj "eth0" "tx_bytes" "eth0" "tx_bytes").
  - apply list_elem_of_further, list_elem_of_here.
  - apply list_elem_of_further, list_elem_of_here.
  - reflexivity.
Defined.

(** ** Interface: outcomes *)


(** X3: a poll reads nothing but the two statistics files of its own
    interface: in file systems that agree on them it returns the same
    result and leaves the same object. *)
Theorem poll_reads_own_files fs1 fs2 self :
  (∀ key, key ∈ KEYS → raw fs1 (iface self) key = raw fs2 (iface self) key) →
  poll fs1 self = poll fs2 self.
Proof.
  intros Hagree.
  pose proof (Hagree "rx_bytes" (list_elem_of_here _ _)) as Hrx.
  pose proof (Hagree "tx_bytes"
                (list_elem_of_further _ _ _ (list_elem_of_here _ _))) as Htx.
  destruct (raw fs2 (iface self) "rx_bytes") as [rx|e1] eqn:Hrx2.
  - destruct (raw fs2 (iface self) "tx_bytes") as [tx|e2] eqn:Htx2.
    + by rewrite (poll_Ok fs1 self rx tx), (poll_Ok fs2 self rx tx).
    + by rewrite (poll_Raise_tx fs1 self rx e2),
                 (poll_Raise_tx fs2 self rx e2).
  - by rewrite (poll_Raise_rx fs1 self e1), (poll_Raise_rx fs2 self e1).
Qed.

Lemma poll_reads_own_files_witness :
  poll (sysfs_of (stats "eth0" 1500 3))
    {| mem := {["rx_bytes" := 1000]}; iface := "eth0" |}
  = poll (sysfs_of (stats "eth0" 1500 3 ++ stats "wlan0" 7 7))
      {| mem := {["rx_bytes" := 1000]}; iface := "eth0" |}.
Proof.
  apply (poll_reads_own_files (sysfs_of (stats "eth0" 1500 3))
           (sysfs_of (stats "eth0" 1500 3 ++ stats "wlan0" 7 7))).
  intros key Hkey.
  destruct (elem_of_KEYS key Hkey) as [-> | ->]; reflexivity.
Defined.

(** X4: [Interface(nm)] succeeds exactly when both counters of [nm] are
    readable; the object then stores the two raw values and nothing else.
    Otherwise the exception of the first failing read propagates and no
    object is made. *)
Theorem Interface_init_outcome fs nm :
  match Interface_init fs nm with
  | Ok self =>
      iface self = nm
      ∧ ∃ rx tx, raw fs nm "rx_bytes" = Ok rx
               ∧ raw fs nm "tx_bytes" = Ok tx
               ∧ mem self = {["rx_bytes" := rx; "tx_bytes" := tx]}
  | Raise e =>
      raw fs nm "rx_bytes" = Raise e
      ∨ (is_Ok (raw fs nm "rx_bytes") ∧ raw fs nm "tx_bytes" = Raise e)
  end.
Proof.
  unfold Interface_init. fold (fresh nm).
  destruct (raw fs nm "rx_bytes") as [rx|e1] eqn:Hrx.
  - destruct (raw fs nm "tx_bytes") as [tx|e2] eqn:Htx.
    + rewrite (poll_Ok fs (fresh nm) rx tx) by done. cbn [fresh mem iface].
      split; [done|]. exists rx, tx. split; [done|]. split; [done|].
      rewrite insert_empty. by apply insert_insert_ne.
    + rewrite (poll_Raise_tx fs (fresh nm) rx e2) by done. by right.
  - rewrite (poll_Raise_rx fs (fresh nm) e1) by done. by left.
Qed.

(** ** Interface: conservation *)

Lemma total_diffs prev xs :
  total (diffs prev xs) = default prev (last xs) - prev.
Proof.
  revert prev. induction xs as [|x xs IH]; intros prev.
  - simpl. lia.
  - cbn [diffs total foldr]. fold (total (diffs x xs)). rewrite IH.
    destruct xs as [|y xs]; [simpl; lia|].
    rewrite last_cons_cons.
    destruct (last (y :: xs)) as [z|] eqn:Hlast; [simpl; lia|].
    by apply last_None in Hlast.
Qed.

(** X5: over any run of successful polls the deltas reported for a counter
    add up to the last raw value minus the value stored at the start, also
    when the counter went down in between: what a negative delta takes
    away was reported before. *)
Theorem deltas_telescope nm key fss self xs :
  key ∈ KEYS →
  iface self = nm →
  Forall (λ fs, readable fs nm) fss →
  readings nm key fss = Ok <$> xs →
  ∃ ds, delta_of key <$> poll_seq fss self = Some <$> ds
      ∧ length ds = length fss
      ∧ total ds
        = default (default 0 (mem self !! key)) (last xs)
          - default 0 (mem self !! key).
Proof.
  intros Hkey Hnm Hall Hxs.
  exists (diffs (default 0 (mem self !! key)) xs).
  split; [by apply (poll_seq_deltas nm)|]. split; [|apply total_diffs].
  apply (f_equal length) in Hxs. unfold readings in Hxs.
  rewrite !length_fmap in Hxs. rewrite Hxs. clear.
  generalize (default 0 (mem self !! key)).
  induction xs as [|x xs IH]; intros prev; cbn; [done|]. by rewrite IH.
Qed.

Lemma deltas_telescope_witness :
  ∃ ds, delta_of "rx_bytes" <$> poll_seq scenario (fresh "eth0") = Some <$> ds
      ∧ length ds = length scenario
      ∧ total ds
        = default (default 0 (mem (fresh "eth0") !! "rx_bytes"))
            (last [1000; 1500; 1200; 1800])
          - default 0 (mem (fresh "eth0") !! "rx_bytes").
Proof.
  apply (deltas_telescope "eth0" "rx_bytes" scenario (fresh "eth0")
           [1000; 1500; 1200; 1800]).
  - apply list_elem_of_here.
  - reflexivity.
  - repeat constructor.
  - reflexivity.
Defined.

(** ** SpeedDB: snapshots *)

Lemma dict_keys_update_first_occurrences {V} (kvs d : list (string * V)) :
  dict_keys (dict_update d kvs)
  = dict_keys d ++ filter (λ k, k ∉ dict_keys d) (first_occurrences kvs.*1).
Proof.
  revert d. induction kvs as [|[k v] kvs IH]; intros d.
  - cbn. by rewrite app_nil_r.
  - cbn [dict_update foldl fst snd].
    fold (dict_update (dict_set k v d) kvs). rewrite IH, dict_keys_set.
    rewrite fmap_cons. cbn [fst first_occurrences].
    destruct (decide (k ∈ dict_keys d)) as [Hin|Hnin].
    + rewrite filter_cons_False by (intros Hn; by apply Hn). f_equal.
      symmetry. apply list_filter_filter_l. intros x Hx ->. done.
    + rewrite filter_cons_True by done. rewrite <- app_assoc. f_equal.
      cbn [app]. f_equal. rewrite list_filter_filter.
      apply list_filter_iff. intros x.
      rewrite elem_of_app, list_elem_of_singleton. tauto.
Qed.

Lemma pack_loop_names fs xs acc :
  iface <$> (pack_loop fs xs acc).2 = iface <$> xs.
Proof.
  revert acc. induction xs as [|x xs IH]; intros acc; [done|].
  cbn [pack_loop]. pose proof (iface_polled fs x) as Hx. unfold polled in Hx.
  destruct (poll fs x) as [[d|e] x']; cbn [snd] in Hx.
  - specialize (IH (dict_set (iface x) d acc)).
    destruct (pack_loop fs xs (dict_set (iface x) d acc)) as [r xs'].
    cbn [snd] in *. by rewrite !fmap_cons, Hx, IH.
  - cbn [snd]. by rewrite !fmap_cons, Hx.
Qed.

Lemma pack_loop_first_failure fs pre x post acc e :
  Forall (λ y, is_Ok (poll fs y).1) pre →
  (poll fs x).1 = Raise e →
  pack_loop fs (pre ++ x :: post) acc
  = (Raise e, (polled fs <$> pre) ++ polled fs x :: post).
Proof.
  intros Hpre Hx. revert acc.
  induction pre as [|y pre IH]; intros acc.
  - cbn [app pack_loop fmap list_fmap]. unfold polled.
    destruct (poll fs x) as [[d|e'] x']; cbn [fst snd] in *; by simplify_eq.
  - apply Forall_cons in Hpre as [Hy Hpre].
    cbn [app pack_loop fmap list_fmap]. unfold polled in *.
    destruct (poll fs y) as [[d|e'] y']; [|done].
    by rewrite (IH Hpre).
Qed.

(** X6: a [pack] never changes which interfaces are tracked nor their
    order, whether it returns or raises: the list of names of the trackers
    is the same after the call. *)
Theorem pack_preserves_names fs db :
  iface <$> ifaces (pack fs db).2 = iface <$> ifaces db.
Proof.
  unfold pack. pose proof (pack_loop_names fs (ifaces db) []) as H.
  by destruct (pack_loop fs (ifaces db) []) as [r xs].
Qed.

(** X7: [pack] returns a snapshot exactly when every counter of every
    tracked interface is readable. *)
Theorem pack_succeeds_iff fs db :
  is_Ok (pack fs db).1 ↔ all_readable fs (iface <$> ifaces db).
Proof.
  unfold all_readable. rewrite Forall_fmap. split.
  - intros Hok.
    destruct (pack fs db) as [[s|e] db'] eqn:Hp; [|done].
    apply pack_Ok_inv in Hp as (Hall & _ & _).
    eapply Forall_impl; [exact Hall|]. intros x. apply poll_is_Ok_readable.
  - intros Hall. unfold pack. rewrite pack_loop_Ok; [done|].
    eapply Forall_impl; [exact Hall|]. intros x Hx. simpl in Hx.
    by destruct (poll_readable fs x Hx) as (d & -> & _).
Qed.

(** X8: a snapshot lists the tracked interface names in the order of their
    first appearance, each once, and holds under every name a dict with
    exactly the keys [rx_bytes], [tx_bytes], in that order. *)
Theorem snapshot_shape fs db s db' :
  pack fs db = (Ok s, db') →
  dict_keys s = first_occurrences (iface <$> ifaces db)
  ∧ Forall (λ d, dict_keys d = KEYS) (dict_values s).
Proof.
  intros (Hall & -> & _)%pack_Ok_inv. split.
  - rewrite dict_keys_update_first_occurrences, pack_entries_names.
    cbn [dict_keys fmap list_fmap app].
    clear. induction (first_occurrences (iface <$> ifaces db)) as [|x l IH];
      [done|].
    rewrite filter_cons_True by apply not_elem_of_nil. by rewrite IH.
  - apply dict_values_update; [|constructor].
    rewrite <- list_fmap_compose, Forall_fmap.
    eapply Forall_impl; [exact Hall|]. intros x Hx. simpl.
    apply poll_is_Ok_readable in Hx.
    destruct (poll_readable fs x Hx) as (d & Hp & Hk & _).
    unfold reported. by rewrite Hp.
Qed.

Lemma snapshot_shape_witness :
  dict_keys [("wlan0", [("rx_bytes", 2); ("tx_bytes", 2)]);
             ("eth0", [("rx_bytes", 0); ("tx_bytes", 1)])]
  = first_occurrences
      (iface <$> [ {| mem := {["rx_bytes" := 5; "tx_bytes" := 5]};
                      iface := "wlan0" |};
                   {| mem := {["rx_bytes" := 9; "tx_bytes" := 8]};
                      iface := "eth0" |};
                   {| mem := ∅; iface := "wlan0" |} ])
  ∧ Forall (λ d, dict_keys d = KEYS)
      (dict_values [("wlan0", [("rx_bytes", 2); ("tx_bytes", 2)]);
                    ("eth0", [("rx_bytes", 0); ("tx_bytes", 1)])]).
Proof.
  eapply (snapshot_shape
           (sysfs_of (stats "eth0" 9 9 ++ stats "wlan0" 2 2))
           {| ifaces := [ {| mem := {["rx_bytes" := 5; "tx_bytes" := 5]};
                             iface := "wlan0" |};
                          {| mem := {["rx_bytes" := 9; "tx_bytes" := 8]};
                             iface := "eth0" |};
                          {| mem := ∅; iface := "wlan0" |} ] |}).
  reflexivity.
Defined.

(** X9: when polls fail, [pack] raises the exception of the first tracker,
    in list order, whose poll raises. The trackers before it have been
    polled and keep their advanced values (their deltas are returned to
    nobody), the failing tracker is as its own poll left it, and the
    trackers after it are not polled at all. *)
Theorem pack_first_failure fs db pre x post e :
  ifaces db = pre ++ x :: post →
  Forall (λ y, is_Ok (poll fs y).1) pre →
  (poll fs x).1 = Raise e →
  pack fs db
  = (Raise e, {| ifaces := (polled fs <$> pre) ++ polled fs x :: post |}).
Proof.
  intros Hsplit Hpre Hx. unfold pack. rewrite Hsplit.
  by rewrite (pack_loop_first_failure fs pre x post [] e).
Qed.

Lemma pack_first_failure_witness :
  pack (eth0_at 1500)
    {| ifaces := [ {| mem := {["rx_bytes" := 1000; "tx_bytes" := 0]};
                      iface := "eth0" |};
                   {| mem := {["rx_bytes" := 5; "tx_bytes" := 5]};
                      iface := "wlan0" |};
                   {| mem := {["rx_bytes" := 1200; "tx_bytes" := 0]};
                      iface := "eth0" |} ] |}
  = (Raise OSError,
     {| ifaces :=
          (polled (eth0_at 1500)
             <$> [ {| mem := {["rx_bytes" := 1000; "tx_bytes" := 0]};
                      iface := "eth0" |} ])
          ++ polled (eth0_at 1500)
               {| mem := {["rx_bytes" := 5; "tx_bytes" := 5]};
                  iface := "wlan0" |}
          :: [ {| mem := {["rx_bytes" := 1200; "tx_bytes" := 0]};
                  iface := "eth0" |} ] |}).
Proof.
  apply pack_first_failure.
  - reflexivity.
  - repeat constructor.
  - reflexivity.
Defined.

(** ** SpeedDB: construction *)

Lemma Interface_init_readable fs nm :
  readable fs nm → Interface_init fs nm = Ok (polled fs (fresh nm)).
Proof.
  intros Hfs. unfold Interface_init. fold (fresh nm).
  by destruct (poll_readable fs (fresh nm) Hfs) as (d & -> & _).
Qed.

Lemma Interface_init_Ok_inv fs nm x :
  Interface_init fs nm = Ok x → readable fs nm ∧ x = polled fs (fresh nm).
Proof.
  intros Hinit.
  assert (readable fs nm) as Hfs.
  { apply (poll_is_Ok_readable fs (fresh nm)).
    unfold Interface_init in Hinit. fold (fresh nm) in Hinit.
    by destruct (poll fs (fresh nm)) as [[d|e] x']. }
  rewrite (Interface_init_readable fs nm Hfs) in Hinit. by simplify_eq.
Qed.

Lemma Interface_init_all_Ok_inv fs names xs :
  Interface_init_all fs names = Ok xs →
  all_readable fs names ∧ xs = (λ nm, polled fs (fresh nm)) <$> names.
Proof.
  revert xs. induction names as [|nm names IH]; intros xs; cbn.
  - intros [= <-]. split; [constructor|done].
  - destruct (Interface_init fs nm) as [x|e] eqn:Hx; [|done].
    destruct (Interface_init_all fs names) as [xs0|e]; [|done].
    intros [= <-]. apply Interface_init_Ok_inv in Hx as [Hfs ->].
    destruct (IH xs0 eq_refl) as [Hall ->]. split; [by constructor|done].
Qed.

Lemma Interface_init_all_readable fs names :
  all_readable fs names →
  Interface_init_all fs names = Ok ((λ nm, polled fs (fresh nm)) <$> names).
Proof.
  induction 1 as [|nm names Hfs Hall IH]; cbn; [done|].
  by rewrite (Interface_init_readable fs nm Hfs), IH.
Qed.

Lemma pack_settled fs xs :
  Forall (λ x, poll fs x = (Ok zero_deltas, x)) xs →
  pack fs {| ifaces := xs |}
  = (Ok (dict_update [] ((λ x, (iface x, zero_deltas)) <$> xs)),
     {| ifaces := xs |}).
Proof.
  intros Hall. unfold pack. cbn [ifaces]. rewrite pack_loop_Ok.
  - f_equal; [f_equal; f_equal|f_equal].
    + apply Forall_fmap_ext_1. eapply Forall_impl; [exact Hall|].
      intros x Hx. simpl. unfold reported. by rewrite Hx.
    + rewrite <- (list_fmap_id xs) at 2. apply Forall_fmap_ext_1.
      eapply Forall_impl; [exact Hall|]. intros x Hx. simpl.
      unfold polled. by rewrite Hx.
  - eapply Forall_impl; [exact Hall|]. intros x Hx. simpl. by rewrite Hx.
Qed.

(** X10: [SpeedDB(names)] succeeds exactly when every counter of every
    listed interface is readable; an empty list always succeeds, with no
    tracker. *)
Theorem SpeedDB_init_succeeds_iff fs names :
  is_Ok (SpeedDB_init fs names) ↔ all_readable fs names.
Proof.
  unfold SpeedDB_init. split.
  - destruct (Interface_init_all fs names) as [xs|e] eqn:Hi; [|done].
    intros _. by apply Interface_init_all_Ok_inv in Hi as [? _].
  - intros Hall. by rewrite (Interface_init_all_readable fs names Hall).
Qed.

(** X11: the first snapshot taken after construction, while no raw value
    has changed, reports zero for every counter of every listed interface
    (the baseline is the reading of the constructor), lists the names in
    the order of their first appearance, and leaves the trackers as they
    are. *)
Theorem first_snapshot_zero fs names db :
  SpeedDB_init fs names = Ok db →
  ∃ s, pack fs db = (Ok s, db)
     ∧ dict_keys s = first_occurrences names
     ∧ Forall (λ d, d = zero_deltas) (dict_values s).
Proof.
  unfold SpeedDB_init.
  destruct (Interface_init_all fs names) as [xs|e] eqn:Hi; [|done].
  intros [= <-]. apply Interface_init_all_Ok_inv in Hi as [Hall ->].
  set (xs := (λ nm, polled fs (fresh nm)) <$> names).
  assert (Forall (λ x, poll fs x = (Ok zero_deltas, x)) xs) as Hset.
  { subst xs. rewrite Forall_fmap. eapply Forall_impl; [exact Hall|].
    intros nm Hnm. simpl. apply poll_twice.
    by destruct (poll_readable fs (fresh nm) Hnm) as (d & -> & _). }
  eexists. split; [by apply pack_settled|]. split.
  - rewrite dict_keys_update_first_occurrences.
    cbn [dict_keys fmap list_fmap app].
    assert (((λ x, (iface x, zero_deltas)) <$> xs).*1 = names) as ->.
    { subst xs. rewrite <- !list_fmap_compose.
      rewrite <- (list_fmap_id names) at 2. apply list_fmap_ext.
      intros i nm _. simpl. apply iface_polled. }
    clear. induction (first_occurrences names) as [|x l IH]; [done|].
    rewrite filter_cons_True by apply not_elem_of_nil. by rewrite IH.
  - apply dict_values_update; [|constructor].
    rewrite <- list_fmap_compose, Forall_fmap. by apply Forall_true.
Qed.

Lemma first_snapshot_zero_witness :
  ∃ s, pack (sysfs_of (stats "eth0" 1000 7 ++ stats "wlan0" 3 4))
         {| ifaces := (λ nm,
              polled (sysfs_of (stats "eth0" 1000 7 ++ stats "wlan0" 3 4))
                (fresh nm)) <$> ["eth0"; "wlan0"] |}
       = (Ok s,
          {| ifaces := (λ nm,
               polled (sysfs_of (stats "eth0" 1000 7 ++ stats "wlan0" 3 4))
                 (fresh nm)) <$> ["eth0"; "wlan0"] |})
     ∧ dict_keys s = first_occurrences ["eth0"; "wlan0"]
     ∧ Forall (λ d, d = zero_deltas) (dict_values s).
Proof.
  apply (first_snapshot_zero
           (sysfs_of (stats "eth0" 1000 7 ++ stats "wlan0" 3 4))
           ["eth0"; "wlan0"]).
  reflexivity.
Defined.

(** ** The loop *)

Lemma count_app p evs1 evs2 :
  count p (evs1 ++ evs2) = (count p evs1 + count p evs2)%nat.
Proof. unfold count. by rewrite List.filter_app, length_app. Qed.


Lemma count_none p evs : Forall (λ ev, p ev = false) evs → count p evs = 0%nat.
Proof.
  unfold count. induction 1 as [|ev evs Hev _ IH]; [done|].
  cbn [List.filter]. by rewrite Hev.
Qed.

(** The event a successful [send] produces. *)
Lemma send_unfold w q speed :
  send w q speed
  = match pack (files w) speed with
    | (Ok s, speed') =>
        (Ok tt, speed',
         [if dry q
          then Print stdout
                 (json_dumps
                    {| origin := node q; when := clock w; data := s |})
          else ZmqSendJson
                 {| origin := node q; when := clock w; data := s |}])
    | (Raise e, speed') => (Raise e, speed', [])
    end.
Proof.
  unfold send. destruct (pack (files w) speed) as [[s|e] speed']; [|done].
  by destruct (dry q).
Qed.

Lemma pack_all_readable fs db :
  all_readable fs (iface <$> ifaces db) →
  pack fs db
  = (Ok (dict_update [] ((λ x, (iface x, reported fs x)) <$> ifaces db)),
     {| ifaces := polled fs <$> ifaces db |}).
Proof.
  unfold all_readable. rewrite Forall_fmap. intros Hall.
  unfold pack. rewrite pack_loop_Ok; [done|].
  eapply Forall_impl; [exact Hall|]. intros x Hx. simpl in Hx.
  by destruct (poll_readable fs x Hx) as (d & -> & _).
Qed.

Lemma pack_not_all_readable fs db :
  ¬ all_readable fs (iface <$> ifaces db) → ∃ e, (pack fs db).1 = Raise e.
Proof.
  intros Hnot. destruct (pack fs db) as [[s|e] db'] eqn:Hp; [|by exists e].
  destruct Hnot. apply pack_Ok_inv in Hp as (Hall & _ & _).
  unfold all_readable. rewrite Forall_fmap.
  eapply Forall_impl; [exact Hall|]. intros x. apply poll_is_Ok_readable.
Qed.

Lemma polled_names fs (xs : list Interface) :
  iface <$> (polled fs <$> xs) = iface <$> xs.
Proof.
  rewrite <- list_fmap_compose. apply list_fmap_ext. intros i x _.
  apply iface_polled.
Qed.


(** X12: while every counter of every tracked interface stays readable the
    loop keeps running, and its trace is, turn after turn, one message
    (a line on standard output in dry mode, a [send_json] otherwise)
    followed by one [sleep(1)]; the message of a turn carries the node name
    and the clock of that turn. *)
Theorem beacon_loop_running q names ws :
  Forall (λ w, all_readable (files w) names) ws →
  ∀ speed,
    iface <$> ifaces speed = names →
    ∃ ds, beacon_loop q speed ws
          = (Running, concat ((λ d, [message q d; Sleep 1]) <$> ds))
        ∧ when <$> ds = clock <$> ws
        ∧ Forall (λ d, origin d = node q) ds.
Proof.
  induction 1 as [|w ws Hw _ IH]; intros speed Hnames.
  { by exists []. }
  cbn [beacon_loop]. rewrite send_unfold.
  rewrite <- Hnames in Hw. rewrite (pack_all_readable _ _ Hw).
  set (speed' := {| ifaces := polled (files w) <$> ifaces speed |}).
  destruct (IH speed') as (ds & Hrun & Hwhen & Horigin).
  { subst speed'. cbn [ifaces]. by rewrite polled_names. }
  rewrite Hrun.
  set (d := {| origin := node q; when := clock w; data := _ |}).
  exists (d :: ds). split; [|split].
  - unfold message. by destruct (dry q).
  - by rewrite !fmap_cons, Hwhen.
  - by constructor.
Qed.

Lemma beacon_loop_running_witness :
  ∃ ds, beacon_loop (queue_of "node" false "tcp://127.0.0.1:8733")
          {| ifaces := [ {| mem := {["rx_bytes" := 1000; "tx_bytes" := 0]};
                            iface := "eth0" |} ] |}
          [world_of 10 (stats "eth0" 1500 0);
           world_of 11 (stats "eth0" 1200 0)]
        = (Running,
           concat ((λ d, [message
                            (queue_of "node" false "tcp://127.0.0.1:8733") d;
                          Sleep 1]) <$> ds))
      ∧ when <$> ds
        = clock <$> [world_of 10 (stats "eth0" 1500 0);
                     world_of 11 (stats "eth0" 1200 0)]
      ∧ Forall (λ d, origin d
                     = node (queue_of "node" false "tcp://127.0.0.1:8733"))
          ds.
Proof.
  apply (beacon_loop_running
           (queue_of "node" false "tcp://127.0.0.1:8733") ["eth0"]
           [world_of 10 (stats "eth0" 1500 0);
            world_of 11 (stats "eth0" 1200 0)]).
  - repeat constructor.
  - reflexivity.
Defined.

(** X13: the loop ends at the first turn in which some counter of a tracked
    interface is unreadable: the run crashes with the exception of that
    snapshot, the failing turn prints, sends and sleeps nothing, and what
    the later turns would have seen does not matter. *)
Theorem beacon_loop_crash q names pre w post :
  Forall (λ w, all_readable (files w) names) pre →
  ¬ all_readable (files w) names →
  ∀ speed,
    iface <$> ifaces speed = names →
    ∃ e, beacon_loop q speed (pre ++ w :: post)
         = (Crashed e, (beacon_loop q speed pre).2).
Proof.
  intros Hpre Hw. induction Hpre as [|w0 pre Hw0 _ IH]; intros speed Hnames.
  - cbn [app beacon_loop snd]. rewrite send_unfold.
    rewrite <- Hnames in Hw.
    destruct (pack_not_all_readable _ _ Hw) as [e He].
    destruct (pack (files w) speed) as [[s|e'] speed']; simplify_eq/=.
    by exists e.
  - cbn [app beacon_loop]. rewrite send_unfold.
    rewrite <- Hnames in Hw0. rewrite (pack_all_readable _ _ Hw0).
    set (speed' := {| ifaces := polled (files w0) <$> ifaces speed |}).
    destruct (IH speed') as [e He].
    { subst speed'. cbn [ifaces]. by rewrite polled_names. }
    rewrite He. exists e.
    by destruct (beacon_loop q speed' pre) as [r evs].
Qed.

Lemma beacon_loop_crash_witness :
  ∃ e, beacon_loop (queue_of "node" true "tcp://127.0.0.1:8733")
         {| ifaces := [ {| mem := {["rx_bytes" := 1000; "tx_bytes" := 0]};
                           iface := "eth0" |} ] |}
         ([world_of 10 (stats "eth0" 1500 0)]
          ++ world_of 11 [] :: [world_of 12 (stats "eth0" 1800 0)])
       = (Crashed e,
          (beacon_loop (queue_of "node" true "tcp://127.0.0.1:8733")
             {| ifaces := [ {| mem := {["rx_bytes" := 1000; "tx_bytes" := 0]};
                               iface := "eth0" |} ] |}
             [world_of 10 (stats "eth0" 1500 0)]).2).
Proof.
  apply (beacon_loop_crash _ ["eth0"]).
  - repeat constructor.
  - intros H. apply Forall_cons in H as [H _].
    apply Forall_cons in H as [H _]. exact H.
  - reflexivity.
Defined.

(** X14: every message of the loop, printed or sent, names the configured
    node as its origin, is stamped with the clock of one of the turns, and
    holds the tracked interface names in the order of their first
    appearance, each with exactly the two counters: the key set never
    changes over the run. *)
Theorem beacon_loop_envelopes q names ws :
  ∀ speed,
    iface <$> ifaces speed = names →
    Forall (λ ev, ∀ d, envelope_of ev = Some d →
              origin d = node q
              ∧ when d ∈ clock <$> ws
              ∧ dict_keys (data d) = first_occurrences names
              ∧ Forall (λ c, dict_keys c = KEYS) (dict_values (data d)))
      (beacon_loop q speed ws).2.
Proof.
  induction ws as [|w ws IH]; intros speed Hnames; [constructor|].
  cbn [beacon_loop]. rewrite send_unfold.
  destruct (pack (files w) speed) as [[s|e] speed'] eqn:Hp; [|constructor].
  apply pack_Ok_inv in Hp as (Hall & -> & Hxs).
  assert (iface <$> ifaces speed' = names) as Hn.
  { by rewrite Hxs, polled_names. }
  specialize (IH speed' Hn).
  destruct (beacon_loop q speed' ws) as [r evs]. cbn [snd] in *.
  apply Forall_app. split; [|constructor; [done|]].
  - constructor; [|constructor]. intros d Hd.
    assert (d = {| origin := node q; when := clock w;
                   data := dict_update []
                     ((λ x, (iface x, reported (files w) x))
                        <$> ifaces speed) |}) as ->.
    { destruct (dry q); cbn in Hd; by simplify_eq. }
    cbn [origin when data]. split; [done|].
    split; [rewrite fmap_cons; apply list_elem_of_here|]. split.
    + rewrite dict_keys_update_first_occurrences, pack_entries_names, Hnames.
      cbn [dict_keys fmap list_fmap app].
      clear. induction (first_occurrences names) as [|x l IH]; [done|].
      rewrite filter_cons_True by apply not_elem_of_nil. by rewrite IH.
    + apply dict_values_update; [|constructor].
      rewrite <- list_fmap_compose, Forall_fmap.
      eapply Forall_impl; [exact Hall|]. intros x Hx. simpl.
      apply poll_is_Ok_readable in Hx.
      destruct (poll_readable (files w) x Hx) as (c & Hc & Hk & _).
      unfold reported. by rewrite Hc.
  - eapply Forall_impl; [exact IH|]. intros ev Hev d Hd.
    destruct (Hev d Hd) as (Ho & Hwhen & Hkeys & Hvals).
    split; [done|]. split; [|done].
    rewrite fmap_cons. by apply list_elem_of_further.
Qed.

Lemma beacon_loop_envelopes_witness :
  Forall (λ ev, ∀ d, envelope_of ev = Some d →
            origin d = "node"
            ∧ when d ∈ clock <$> [world_of 10 (stats "eth0" 1500 0)]
            ∧ dict_keys (data d) = first_occurrences ["eth0"; "eth0"]
            ∧ Forall (λ c, dict_keys c = KEYS) (dict_values (data d)))
    (beacon_loop (queue_of "node" false "tcp://127.0.0.1:8733")
       {| ifaces := [ {| mem := {["rx_bytes" := 1000; "tx_bytes" := 0]};
                         iface := "eth0" |};
                      {| mem := {["rx_bytes" := 1200; "tx_bytes" := 0]};
                         iface := "eth0" |} ] |}
       [world_of 10 (stats "eth0" 1500 0)]).2.
Proof.
  apply (beacon_loop_envelopes
           (queue_of "node" false "tcp://127.0.0.1:8733")
           ["eth0"; "eth0"] [world_of 10 (stats "eth0" 1500 0)]).
  reflexivity.
Defined.

(** ** Start-up *)

Lemma beacon_unfold args w0 ws :
  beacon args w0 ws
  = match startup_crypto args w0 with
    | Raise e => (Crashed e, [])
    | Ok (crypto, evs0) =>
        match startup_queue args w0 crypto with
        | (Raise e, evs1) => (Crashed e, evs0 ++ evs1)
        | (Ok q, evs1) =>
            match resolve_ifaces args w0 with
            | Raise e => (Crashed e, evs0 ++ evs1)
            | Ok names =>
                match SpeedDB_init (files w0) names with
                | Raise e => (Crashed e, evs0 ++ evs1)
                | Ok speed =>
                    ((beacon_loop q speed ws).1,
                     evs0 ++ evs1 ++ (beacon_loop q speed ws).2)
                end
            end
        end
    end.
Proof.
  unfold beacon, startup_crypto, startup_queue, crypto_enabled,
    resolve_ifaces.
  destruct (truthy (Args.key args) && truthy (Args.client_key args)).
  - destruct (Crypto_init w0 _ _) as [c|e]; [|done].
    destruct (Queue_init w0 _ _ _ _) as [[q|e] evs1]; [|done].
    destruct (match Args.ifaces args with
              | [] => listdir w0 "/sys/class/net/"
              | _ :: _ => Ok (Args.ifaces args)
              end) as [names|e]; [|done].
    destruct (SpeedDB_init (files w0) names) as [speed|e]; [|done].
    by destruct (beacon_loop _ speed ws).
  - destruct (Queue_init w0 _ _ _ _) as [[q|e] evs1]; [|done].
    destruct (match Args.ifaces args with
              | [] => listdir w0 "/sys/class/net/"
              | _ :: _ => Ok (Args.ifaces args)
              end) as [names|e]; [|done].
    destruct (SpeedDB_init (files w0) names) as [speed|e]; [|done].
    by destruct (beacon_loop _ speed ws).
Qed.

Lemma beacon_loop_no_warning q ws :
  ∀ speed, Forall (λ ev, is_warning ev = false) (beacon_loop q speed ws).2.
Proof.
  induction ws as [|w ws IH]; intros speed; [constructor|].
  cbn [beacon_loop]. rewrite send_unfold.
  destruct (pack (files w) speed) as [[s|e] speed']; [|constructor].
  specialize (IH speed').
  destruct (beacon_loop q speed' ws) as [r evs]. cbn [snd app] in *.
  constructor; [by destruct (dry q)|]. by constructor.
Qed.

Lemma startup_crypto_events args w0 c evs0 :
  startup_crypto args w0 = Ok (c, evs0) →
  evs0 = if negb (Args.dry args) && negb (crypto_enabled args)
         then [Print stderr (Literal "crypto disabled")] else [].
Proof.
  unfold startup_crypto. destruct (crypto_enabled args).
  - destruct (Crypto_init w0 _ _); [|done]. intros [= _ <-].
    by rewrite andb_false_r.
  - intros [= _ <-]. by rewrite andb_true_r.
Qed.

(** What building the [Queue] does is quiet, and reaches the network with
    the connect alone, when the constructor returns. *)
Lemma startup_queue_events args w0 c r evs1 :
  startup_queue args w0 c = (r, evs1) →
  Forall (λ ev, is_output ev = false ∧ is_sleep ev = false
                ∧ is_warning ev = false) evs1
  ∧ network_ops evs1
    = match r with
      | Ok _ => [ZmqConnect (Args.endpoint args)]
      | Raise _ => []
      end.
Proof.
  unfold startup_queue. intros Hq. destruct r as [q|e].
  - apply Queue_init_Ok_inv in Hq as (-> & _). split; [|done].
    by repeat constructor.
  - apply Queue_init_Raise_inv in Hq. split.
    + eapply Forall_impl; [exact Hq|]. by intros ev (? & ? & ? & ?).
    + unfold network_ops. induction Hq as [|ev evs (Hev & _) _ IH]; [done|].
      cbn [List.filter]. by rewrite Hev.
Qed.

Lemma count_network_ops evs : count network_op evs = length (network_ops evs).
Proof. done. Qed.

Lemma network_ops_app evs1 evs2 :
  network_ops (evs1 ++ evs2) = network_ops evs1 ++ network_ops evs2.
Proof. apply List.filter_app. Qed.

Lemma network_ops_none evs :
  Forall (λ ev, network_op ev = false) evs → network_ops evs = [].
Proof.
  unfold network_ops. induction 1 as [|ev evs Hev _ IH]; [done|].
  cbn [List.filter]. by rewrite Hev.
Qed.

Lemma is_crypto_warning_is_warning ev :
  is_warning ev = false → is_crypto_warning ev = false.
Proof. by destruct ev as [| | | |[] ?|]. Qed.

Lemma crypto_warning_count (b : bool) evs1 evs2 :
  Forall (λ ev, is_warning ev = false) evs1 →
  Forall (λ ev, is_warning ev = false) evs2 →
  count is_crypto_warning
    ((if b then [Print stderr (Literal "crypto disabled")] else [])
     ++ evs1 ++ evs2)
  = (if b then 1 else 0)%nat
  ∧ (b = true →
     ((if b then [Print stderr (Literal "crypto disabled")] else [])
      ++ evs1 ++ evs2) !! 0%nat
     = Some (Print stderr (Literal "crypto disabled"))).
Proof.
  intros H1 H2. rewrite !count_app.
  rewrite (count_none is_crypto_warning evs1), (count_none _ evs2);
    [|eapply Forall_impl; [eassumption|apply is_crypto_warning_is_warning]..].
  by destruct b.
Qed.

(** X15: over a whole run the program prints the line [crypto disabled] on
    standard error exactly once, as the first thing it does, when the run
    is not dry and a key is missing (or empty); in a dry run, or with both
    keys, it never prints that line. *)
Theorem beacon_warning_count args w0 ws :
  count is_crypto_warning (beacon args w0 ws).2
  = (if negb (Args.dry args) && negb (crypto_enabled args) then 1 else 0)%nat
  ∧ (negb (Args.dry args) && negb (crypto_enabled args) = true →
     (beacon args w0 ws).2 !! 0%nat
     = Some (Print stderr (Literal "crypto disabled"))).
Proof.
  rewrite beacon_unfold.
  destruct (startup_crypto args w0) as [[c evs0]|e] eqn:Hc.
  - apply startup_crypto_events in Hc. subst evs0.
    destruct (startup_queue args w0 c) as [r evs1] eqn:Hq.
    destruct (startup_queue_events _ _ _ _ _ Hq) as [Hquiet _].
    assert (Forall (λ ev, is_warning ev = false) evs1) as H1.
    { eapply Forall_impl; [exact Hquiet|]. by intros ev (_ & _ & ?). }
    pose proof (λ evs2, crypto_warning_count
                  (negb (Args.dry args) && negb (crypto_enabled args))
                  evs1 evs2 H1) as Hcount.
    destruct r as [q|e].
    + destruct (resolve_ifaces args w0) as [names|e].
      * destruct (SpeedDB_init (files w0) names) as [speed|e].
        -- apply Hcount, beacon_loop_no_warning.
        -- cbn [snd]. rewrite <- (app_nil_r evs1). by apply Hcount.
      * cbn [snd]. rewrite <- (app_nil_r evs1). by apply Hcount.
    + cbn [snd]. rewrite <- (app_nil_r evs1). by apply Hcount.
  - cbn [snd]. unfold startup_crypto in Hc.
    destruct (crypto_enabled args); [|done].
    by rewrite andb_false_r.
Qed.

(** X16: when both key paths are given and a certificate cannot be loaded,
    the run ends at once with the exception of the first failing load (the
    file of [--key] is loaded first): no socket is created, nothing is
    connected, printed or read. *)
Theorem beacon_key_load_failure args w0 ws k c e :
  Args.key args = Some k →
  Args.client_key args = Some c →
  k ≠ "" →
  c ≠ "" →
  load_certificate w0 k = Raise e
  ∨ (is_Ok (load_certificate w0 k) ∧ load_certificate w0 c = Raise e) →
  beacon args w0 ws = (Crashed e, []).
Proof.
  intros Hk Hc Hk0 Hc0 Hload. rewrite beacon_unfold.
  unfold startup_crypto, crypto_enabled, truthy. rewrite Hk, Hc.
  rewrite !bool_decide_eq_true_2 by done. simpl.
  unfold Crypto_init.
  destruct Hload as [->|[Hok ->]]; [done|].
  by destruct (load_certificate w0 k).
Qed.

Lemma beacon_key_load_failure_witness :
  beacon {| Args.endpoint := "tcp://127.0.0.1:8733"; Args.name := "node";
            Args.ifaces := ["eth0"]; Args.key := Some "server.key";
            Args.client_key := Some "client.key_secret";
            Args.dry := false |}
    (world_of 10 (stats "eth0" 1000 0)) [world_of 11 (stats "eth0" 1500 0)]
  = (Crashed OSError, []).
Proof.
  apply (beacon_key_load_failure _ _ _ "server.key" "client.key_secret").
  - reflexivity.
  - reflexivity.
  - discriminate.
  - discriminate.
  - left. reflexivity.
Defined.

Lemma apply_Ok_inv w cr z0 z1 :
  apply w cr z0 = (Ok tt, z1) →
  ∃ sec, (client cr).2 = Some sec
       ∧ z1 = {| curve_secretkey := Some sec;
                 curve_publickey := Some (client cr).1;
                 curve_serverkey := Some (server cr).1;
                 endpoints := endpoints z0 |}.
Proof.
  unfold apply. destruct (client cr) as [cp cs], (server cr) as [sp ss].
  unfold mbind, Eff_bind, setattr_curve. destruct cs as [sec|]; [|done].
  destruct (zmq_setsockopt (zmq w) CURVE_SECRETKEY sec); [|done].
  destruct (zmq_setsockopt (zmq w) CURVE_PUBLICKEY cp); [|done].
  destruct (zmq_setsockopt (zmq w) CURVE_SERVERKEY sp); [|done].
  intros [= <-]. by exists sec.
Qed.

Lemma apply_no_secret w cr z0 :
  (client cr).2 = None → apply w cr z0 = (Raise TypeError, z0).
Proof.
  unfold apply. destruct (client cr) as [cp cs], (server cr) as [sp ss].
  by intros [= ->].
Qed.

(** X17: a [Crypto] object holds the certificate of the first path as
    [server] and that of the second path as [client]. A [Queue] that was
    built with it has a socket holding the secret and the public key of
    the client certificate and the public key of the server certificate,
    connected to the one destination; the secret part of the server
    certificate goes nowhere. With a client certificate that has no secret
    key no [Queue] is built: the constructor raises, a [TypeError] once
    context and socket exist, and connects nothing. *)
Theorem socket_keys w0 w path1 path2 cr dest nd dry_ :
  Crypto_init w0 path1 path2 = Ok cr →
  load_certificate w0 path1 = Ok (server cr)
  ∧ load_certificate w0 path2 = Ok (client cr)
  ∧ (∀ q evs,
       Queue_init w dest nd (Some cr) dry_ = (Ok q, evs) →
       ∃ sec, (client cr).2 = Some sec
            ∧ z q = {| curve_secretkey := Some sec;
                       curve_publickey := Some (client cr).1;
                       curve_serverkey := Some (server cr).1;
                       endpoints := [dest] |})
  ∧ ((client cr).2 = None →
     ∃ e, (Queue_init w dest nd (Some cr) dry_).1 = Raise e
        ∧ network_ops (Queue_init w dest nd (Some cr) dry_).2 = []
        ∧ (is_Ok (zmq_Context (zmq w)) → is_Ok (zmq_socket (zmq w)) →
           e = TypeError)).
Proof.
  intros Hinit. unfold Crypto_init in Hinit.
  destruct (load_certificate w0 path1) as [s|e]; [|done].
  destruct (load_certificate w0 path2) as [c|e]; [|done].
  injection Hinit as <-. cbn [server client].
  split; [done|]. split; [done|]. split.
  - intros q evs. unfold Queue_init.
    destruct (zmq_Context (zmq w)); [|done].
    destruct (zmq_socket (zmq w)); [|done].
    destruct (apply w _ _) as [[[]|e] z1] eqn:Happly; [|done].
    destruct (zmq_connect (zmq w) dest); [|done].
    intros [= <- _]. apply apply_Ok_inv in Happly as (sec & Hsec & ->).
    exists sec. by split.
  - intros Hsec. unfold Queue_init.
    destruct (zmq_Context (zmq w)) as [[]|e]; [|by exists e].
    destruct (zmq_socket (zmq w)) as [[]|e]; [|by exists e].
    rewrite apply_no_secret by done. by exists TypeError.
Qed.

Lemma socket_keys_witness :
  let w0 := {| clock := 0; files := sysfs_of [];
               listdir := λ _, Ok [];
               load_certificate := λ path,
                 if decide (path = "server.key") then Ok ("SPUB", None)
                 else Ok ("CPUB", Some "CSEC");
               zmq := zmq_accepting |} in
  let cr := {| server := ("SPUB", None); client := ("CPUB", Some "CSEC") |} in
  ∃ q evs sec,
      Queue_init w0 "tcp://127.0.0.1:8733" "node" (Some cr) false
      = (Ok q, evs)
      ∧ (client cr).2 = Some sec
      ∧ z q = {| curve_secretkey := Some sec;
                 curve_publickey := Some (client cr).1;
                 curve_serverkey := Some (server cr).1;
                 endpoints := ["tcp://127.0.0.1:8733"] |}.
Proof.
  intros w0 cr.
  destruct (socket_keys w0 w0 "server.key" "client.key_secret" cr
              "tcp://127.0.0.1:8733" "node" false eq_refl)
    as (_ & _ & Hbuilt & _).
  eexists _, _.
  destruct (Hbuilt _ _ eq_refl) as (sec & Hsec & Hz).
  exists sec. split; [reflexivity|]. split; [exact Hsec|exact Hz].
Defined.


Lemma SpeedDB_init_Ok_readable fs names db :
  SpeedDB_init fs names = Ok db → all_readable fs names.
Proof.
  unfold SpeedDB_init.
  destruct (Interface_init_all fs names) as [xs|e] eqn:Hi; [|done].
  intros _. by apply Interface_init_all_Ok_inv in Hi as [? _].
Qed.


Lemma quiet_counts evs0 evs1 :
  Forall (λ ev, is_output ev = false ∧ is_sleep ev = false
                ∧ is_warning ev = false) evs1 →
  evs0 = [] ∨ evs0 = [Print stderr (Literal "crypto disabled")] →
  count is_output (evs0 ++ evs1) = 0%nat
  ∧ count is_sleep (evs0 ++ evs1) = 0%nat
  ∧ network_ops (evs0 ++ evs1) = network_ops evs1.
Proof.
  intros Hq H0. rewrite !count_app, network_ops_app.
  rewrite (count_none is_output evs1), (count_none is_sleep evs1);
    [|eapply Forall_impl; [exact Hq|]; by intros ev (? & ? & ?)..].
  by destruct H0 as [-> | ->].
Qed.

Lemma startup_crypto_events_cases args w0 c evs0 :
  startup_crypto args w0 = Ok (c, evs0) →
  evs0 = [] ∨ evs0 = [Print stderr (Literal "crypto disabled")].
Proof.
  intros ->%startup_crypto_events.
  destruct (negb (Args.dry args) && negb (crypto_enabled args)); auto.
Qed.

(** X18: when the interface listing cannot be read, or some counter of a
    listed interface is unreadable at start-up, the run crashes before the
    loop: nothing is ever printed on standard output, sent or slept, and
    the network has seen at most the connect of the socket. *)
Theorem beacon_startup_failure args w0 ws :
  (∀ names, resolve_ifaces args w0 = Ok names →
            ¬ all_readable (files w0) names) →
  ∃ e, (beacon args w0 ws).1 = Crashed e
     ∧ count is_output (beacon args w0 ws).2 = 0%nat
     ∧ count is_sleep (beacon args w0 ws).2 = 0%nat
     ∧ (count network_op (beacon args w0 ws).2 ≤ 1)%nat.
Proof.
  intros Hbad. rewrite beacon_unfold.
  destruct (startup_crypto args w0) as [[c evs0]|e] eqn:Hc.
  - apply startup_crypto_events_cases in Hc.
    destruct (startup_queue args w0 c) as [r evs1] eqn:Hq.
    destruct (startup_queue_events _ _ _ _ _ Hq) as [Hquiet Hnet].
    destruct (quiet_counts evs0 evs1 Hquiet Hc) as (Hout & Hsl & Hn).
    assert (count network_op (evs0 ++ evs1) ≤ 1)%nat as Hle.
    { rewrite count_network_ops, Hn, Hnet. destruct r; cbn; lia. }
    destruct r as [q|e]; [|by exists e].
    destruct (resolve_ifaces args w0) as [names|e]; [|by exists e].
    destruct (SpeedDB_init (files w0) names) as [speed|e] eqn:Hs;
      [|by exists e].
    destruct (Hbad names eq_refl). by apply (SpeedDB_init_Ok_readable _ _ speed).
  - exists e. cbn. repeat split; lia.
Qed.

Lemma beacon_startup_failure_witness :
  ∃ e, (beacon (args_of false ["eth0"]) (world_of 10 [])
          [world_of 11 (stats "eth0" 1500 0)]).1
       = Crashed e
     ∧ count is_output
         (beacon (args_of false ["eth0"]) (world_of 10 [])
            [world_of 11 (stats "eth0" 1500 0)]).2 = 0%nat
     ∧ count is_sleep
         (beacon (args_of false ["eth0"]) (world_of 10 [])
            [world_of 11 (stats "eth0" 1500 0)]).2 = 0%nat
     ∧ (count network_op
          (beacon (args_of false ["eth0"]) (world_of 10 [])
             [world_of 11 (stats "eth0" 1500 0)]).2 ≤ 1)%nat.
Proof.
  apply beacon_startup_failure.
  intros names [= <-] H.
  apply Forall_cons in H as [H _]. apply Forall_cons in H as [H _]. exact H.
Defined.



(** X20: a dry run reaches the network once at most: the network events of
    its whole trace are the one connect made when the [Queue] is built, or
    none when start-up fails before. Nothing is ever sent; and when the
    [Queue] is built the connect is made, dry or not. *)
Theorem beacon_dry_network_ops args w0 ws :
  Args.dry args = true →
  (network_ops (beacon args w0 ws).2 = [ZmqConnect (Args.endpoint args)]
   ∨ network_ops (beacon args w0 ws).2 = [])
  ∧ ∀ c evs0 q evs1,
      startup_crypto args w0 = Ok (c, evs0) →
      startup_queue args w0 c = (Ok q, evs1) →
      network_ops (beacon args w0 ws).2 = [ZmqConnect (Args.endpoint args)].
Proof.
  intros Hdry.
  assert (∀ c evs0 q evs1,
            startup_crypto args w0 = Ok (c, evs0) →
            startup_queue args w0 c = (Ok q, evs1) →
            network_ops (beacon args w0 ws).2
            = [ZmqConnect (Args.endpoint args)]) as Hbuilt.
  { intros c evs0 q evs1 Hc Hq. rewrite beacon_unfold, Hc, Hq.
    pose proof (startup_crypto_events_cases _ _ _ _ Hc) as H0.
    destruct (startup_queue_events _ _ _ _ _ Hq) as [Hquiet Hn1].
    destruct (quiet_counts evs0 evs1 Hquiet H0) as (_ & _ & Hn0).
    assert (dry q = true) as Hq_dry.
    { unfold startup_queue in Hq.
      apply Queue_init_Ok_inv in Hq as (_ & _ & -> & _). done. }
    destruct (resolve_ifaces args w0) as [names|e];
      [|cbn [snd]; by rewrite Hn0, Hn1].
    destruct (SpeedDB_init (files w0) names) as [speed|e];
      [|cbn [snd]; by rewrite Hn0, Hn1].
    cbn [snd]. rewrite app_assoc, network_ops_app, Hn0, Hn1.
    rewrite (network_ops_none _ (beacon_loop_dry_local q ws Hq_dry speed)).
    done. }
  split; [|exact Hbuilt].
  destruct (startup_crypto args w0) as [[c evs0]|e] eqn:Hc.
  - destruct (startup_queue args w0 c) as [[q|e] evs1] eqn:Hq.
    + left. by apply (Hbuilt c evs0 q evs1).
    + right. rewrite beacon_unfold, Hc, Hq. cbn [snd].
      pose proof (startup_crypto_events_cases _ _ _ _ Hc) as H0.
      destruct (startup_queue_events _ _ _ _ _ Hq) as [Hquiet Hn1].
      destruct (quiet_counts evs0 evs1 Hquiet H0) as (_ & _ & Hn0).
      by rewrite Hn0, Hn1.
  - right. by rewrite beacon_unfold, Hc.
Qed.

Lemma beacon_dry_network_ops_witness :
  (network_ops
     (beacon (args_of true ["eth0"]) (world_of 10 (stats "eth0" 1000 0))
        [world_of 10 (stats "eth0" 1500 0)]).2
   = [ZmqConnect (Args.endpoint (args_of true ["eth0"]))]
   ∨ network_ops
       (beacon (args_of true ["eth0"]) (world_of 10 (stats "eth0" 1000 0))
          [world_of 10 (stats "eth0" 1500 0)]).2
     = [])
  ∧ ∀ c evs0 q evs1,
      startup_crypto (args_of true ["eth0"])
        (world_of 10 (stats "eth0" 1000 0)) = Ok (c, evs0) →
      startup_queue (args_of true ["eth0"])
        (world_of 10 (stats "eth0" 1000 0)) c = (Ok q, evs1) →
      network_ops
        (beacon (args_of true ["eth0"]) (world_of 10 (stats "eth0" 1000 0))
           [world_of 10 (stats "eth0" 1500 0)]).2
      = [ZmqConnect (Args.endpoint (args_of true ["eth0"]))].
Proof.
  apply (beacon_dry_network_ops (args_of true ["eth0"])).
  reflexivity.
Defined.

(** X21: a run that is not dry prints nothing in its loop: every event of
    the loop is a [send_json] of an envelope or a [sleep(1)]. *)
Theorem beacon_loop_not_dry q ws speed :
  dry q = false →
  Forall (λ ev, (∃ d, ev = ZmqSendJson d) ∨ ev = Sleep 1)
    (beacon_loop q speed ws).2.
Proof.
  intros Hdry. revert speed.
  induction ws as [|w ws IH]; intros speed; [constructor|].
  cbn [beacon_loop]. rewrite send_unfold, Hdry.
  destruct (pack (files w) speed) as [[s|e] speed']; [|constructor].
  specialize (IH speed').
  destruct (beacon_loop q speed' ws) as [r evs]. cbn [snd app] in *.
  constructor; [left; by eexists|]. constructor; [by right|done].
Qed.

Lemma beacon_loop_not_dry_witness :
  Forall (λ ev, (∃ d, ev = ZmqSendJson d) ∨ ev = Sleep 1)
    (beacon_loop (queue_of "node" false "tcp://127.0.0.1:8733")
       {| ifaces := [ {| mem := {["rx_bytes" := 1000; "tx_bytes" := 0]};
                         iface := "eth0" |} ] |}
       [world_of 10 (stats "eth0" 1500 0);
        world_of 11 (stats "eth0" 1200 0)]).2.
Proof.
  apply (beacon_loop_not_dry
           (queue_of "node" false "tcp://127.0.0.1:8733")).
  reflexivity.
Defined.
